(** * TaskTracker probe service: a shallow embedding of [function_app.py]

    The service has three HTTP handlers ([health_check], [list_probes],
    [predict]) over a read-only directory tree of pickled probes.  The
    embedding keeps the shape of the Python source:

    - Python exceptions are an explicit [outcome] ([Return] / [Raise]);
    - the handlers run in a small state-and-exception monad [M] over a
      [World] made of the file system and the history of observable
      effects (log records, file-system queries, unpickling, calls into
      the loaded probe);
    - [pathlib] paths are lists of components, joined and resolved the way
      [PurePosixPath.__truediv__] and the operating system do it;
    - the third-party pieces the handlers call (pydantic's validation,
      numpy indexing, the unpickled scikit-learn object) are embedded at
      the interface the handlers use. *)

From Stdlib Require Import String Ascii List ZArith Lia Bool PrimFloat.
From Stdlib Require Import Decimal DecimalString DecimalZ.
From Stdlib Require Import Permutation Sorted.
From Stdlib Require OrderedTypeEx.
Import ListNotations.

#[local] Set Warnings "-register-all,-notation-for-abbreviation".

Local Open Scope list_scope.
Local Open Scope string_scope.

(* ================================================================== *)
(** ** Python values and exceptions *)
(* ================================================================== *)

Module Py.

(** An element of the [loc] tuple of a pydantic error: a field name or an
    index into a sequence. *)
Inductive loc_item :=
| LocField (name : string)
| LocIndex (i : nat).

(** One entry of [ValidationError.errors()].  The handler reads the keys
    ["loc"] and ["msg"] only. *)
Record ErrorDetails := mkError { loc : list loc_item; msg : string }.

(** The exception classes [predict] distinguishes in its [except] clauses;
    every other subclass of [Exception] is [OtherException], carrying the
    class name and [str(e)]. *)
Inductive exn :=
| ValidationError (errors : list ErrorDetails)
| FileNotFoundError (text : string)
| OtherException (cls text : string).

Inductive outcome (A : Type) :=
| Return (a : A)
| Raise (e : exn).
Arguments Return {A} a.
Arguments Raise {A} e.

Definition IndexError {A} (text : string) : outcome A :=
  Raise (OtherException "IndexError" text).
Definition ValueError {A} (text : string) : outcome A :=
  Raise (OtherException "ValueError" text).

(** Strings are sequences of code points; the embedding covers the code
    points below 256 (Latin-1), ordered by code point as Python orders
    [str]. *)

(** [str.isdigit] at one character: the decimal digits and, below 256, the
    superscript digits U+00B2, U+00B3 and U+00B9. *)
Definition isdecimal_char (c : ascii) : bool :=
  let n := nat_of_ascii c in (48 <=? n)%nat && (n <=? 57)%nat.

Definition isdigit_char (c : ascii) : bool :=
  let n := nat_of_ascii c in
  isdecimal_char c || (n =? 178)%nat || (n =? 179)%nat || (n =? 185)%nat.

Fixpoint all_chars (f : ascii -> bool) (s : string) : bool :=
  match s with
  | EmptyString => true
  | String c s' => f c && all_chars f s'
  end.

(** [s.isdigit()]: every character a digit and at least one character. *)
Definition isdigit (s : string) : bool :=
  match s with
  | EmptyString => false
  | _ => all_chars isdigit_char s
  end.

(** [int(s)] on a string of digits: base 10, leading zeros allowed; a
    character that is a digit but not a decimal makes it raise
    [ValueError].  (Signs, blanks and underscores, which [int] also
    accepts, never reach it here: the caller tests [isdigit] first.) *)
Definition int (s : string) : outcome Z :=
  match NilEmpty.uint_of_string s with
  | Some d => Return (Z.of_uint d)
  | None =>
      ValueError ("invalid literal for int() with base 10: '" ++ s ++ "'")
  end.

(** [str(n)] for an [int]. *)
Definition str (n : Z) : string := NilZero.string_of_int (Z.to_int n).

(** numpy arrays, as far as the handler looks into them. *)
Record ndarray2 := mkArray2 { ncols : nat; rows : list (list float) }.

(** [a[i][j]] on a two-dimensional array. *)
Definition getitem2 (a : ndarray2) (i j : nat) : outcome float :=
  match nth_error (rows a) i with
  | None => IndexError "index out of bounds"
  | Some r =>
      match nth_error r j with
      | None => IndexError "index out of bounds"
      | Some x => Return x
      end
  end.

(** [a[i]] on a one-dimensional array. *)
Definition getitem1 (a : list float) (i : nat) : outcome float :=
  match nth_error a i with
  | None => IndexError "index out of bounds"
  | Some x => Return x
  end.

(** [np.array(xs) - np.array(ys)] for two sequences of the same length
    (the validated request has 4096 in each). *)
Fixpoint np_sub (xs ys : list float) : list float :=
  match xs, ys with
  | x :: xs', y :: ys' => (x - y)%float :: np_sub xs' ys'
  | _, _ => []
  end.

(** The unpickled probe.  [hasattr(probe_model, "predict_proba")] is
    [attr_predict_proba <> None]; calling the attribute on the one-row
    input either returns an array or raises, and the same input gives the
    same result (a fitted scikit-learn classifier; an object that draws
    random numbers or keeps state between calls is outside the model). *)
Record probe := mkProbe {
  attr_predict_proba : option (list (list float) -> outcome ndarray2);
  attr_predict : option (list (list float) -> outcome (list float))
}.

End Py.
Export Py.

(* ================================================================== *)
(** ** Paths and the file system *)
(* ================================================================== *)

Module Pathlib.

(** An absolute [PurePosixPath]: its components below the root. *)
Definition Path := list string.

Fixpoint split_slash_aux (cur : string) (s : string) : list string :=
  match s with
  | EmptyString => [cur]
  | String c s' =>
      if Ascii.eqb c "/"%char then cur :: split_slash_aux "" s'
      else split_slash_aux (cur ++ String c "") s'
  end.

(** [s.split("/")]. *)
Definition split_slash (s : string) : list string := split_slash_aux "" s.

(** The components pathlib keeps of a string: empty ones and ["."] are
    dropped, [".."] is kept. *)
Definition parse_parts (s : string) : list string :=
  filter (fun c => negb (c =? "") && negb (c =? ".")) (split_slash s).

Definition is_absolute (s : string) : bool :=
  match s with
  | String c _ => Ascii.eqb c "/"%char
  | EmptyString => false
  end.

(** [p / s]: an absolute argument replaces the path, a relative one is
    appended. *)
Definition joinpath (p : Path) (s : string) : Path :=
  if is_absolute s then parse_parts s else (p ++ parse_parts s)%list.

(** [p.name]. *)
Definition name (p : Path) : string := last p "".

(** [str(p)]. *)
Definition render (p : Path) : string :=
  match p with
  | [] => "/"
  | _ => String.concat "" (map (fun c => "/" ++ c) p)
  end.

(** [a < b] on paths: the component lists compared lexicographically, each
    component as a string. *)
Fixpoint path_ltb (a b : Path) : bool :=
  match a, b with
  | _, [] => false
  | [], _ :: _ => true
  | x :: a', y :: b' =>
      match String.compare x y with
      | Lt => true
      | Gt => false
      | Eq => path_ltb a' b'
      end
  end.

(** [sorted(paths)]: a stable sort that only uses [<].  The elements are
    inserted from the right, each one before the first element that is not
    smaller than it. *)
Fixpoint insert_path (p : Path) (l : list Path) : list Path :=
  match l with
  | [] => [p]
  | q :: l' => if path_ltb q p then q :: insert_path p l' else p :: q :: l'
  end.

Definition sorted (l : list Path) : list Path :=
  fold_right insert_path [] l.

End Pathlib.
Export Pathlib.

Notation "p </> s" := (joinpath p s) (at level 40, left associativity).

Module FS.

(** A node of the directory tree.  A file is represented by what
    [pickle.load] makes of its bytes; a directory lists its entries in the
    order the operating system enumerates them.  Symbolic links,
    permissions and limits on the length of names are outside the
    model. *)
Inductive node :=
| File (unpickled : outcome probe)
| Dir (entries : list (string * node)).

Fixpoint lookup (c : string) (es : list (string * node)) : option node :=
  match es with
  | [] => None
  | (n, x) :: es' => if n =? c then Some x else lookup c es'
  end.

(** Path resolution from the root, as [stat] does it: [up] holds the
    directories entered so far, each with the name that was followed out
    of it; [".."] leaves the current directory (the root is its own
    parent); any component below a file fails. *)
Fixpoint walk (up : list (node * string)) (cur : node) (p : Path)
  : option (list (node * string) * node) :=
  match p with
  | [] => Some (up, cur)
  | c :: rest =>
      match cur with
      | File _ => None
      | Dir es =>
          if c =? ".." then
            match up with
            | [] => walk [] cur rest
            | (parent, _) :: up' => walk up' parent rest
            end
          else
            match lookup c es with
            | Some child => walk ((cur, c) :: up) child rest
            | None => None
            end
      end
  end.

Definition resolve (fs : node) (p : Path) : option node :=
  option_map snd (walk [] fs p).


Definition exists_ (fs : node) (p : Path) : bool :=
  match resolve fs p with Some _ => true | None => false end.

Definition is_dir (fs : node) (p : Path) : bool :=
  match resolve fs p with Some (Dir _) => true | _ => false end.

Definition errno_text (what : string) (p : Path) : string :=
  what ++ ": '" ++ render p ++ "'".

(** [os.listdir(p)]. *)
Definition listdir (fs : node) (p : Path) : outcome (list string) :=
  match resolve fs p with
  | Some (Dir es) => Return (map fst es)
  | Some (File _) =>
      Raise (OtherException "NotADirectoryError"
               (errno_text "[Errno 20] Not a directory" p))
  | None =>
      Raise (FileNotFoundError
               (errno_text "[Errno 2] No such file or directory" p))
  end.

(** [open(p, "rb")]: the file's content, or the [OSError] raised. *)
Definition open_rb (fs : node) (p : Path) : outcome (outcome probe) :=
  match resolve fs p with
  | Some (File content) => Return content
  | Some (Dir _) =>
      Raise (OtherException "IsADirectoryError"
               (errno_text "[Errno 21] Is a directory" p))
  | None =>
      Raise (FileNotFoundError
               (errno_text "[Errno 2] No such file or directory" p))
  end.

End FS.

(* ================================================================== *)
(** ** The world the handlers run in *)
(* ================================================================== *)

Module Runtime.

Inductive log_level := INFO | ERROR.

(** Arguments of a log record; [logging] keeps them next to the format
    string. *)
Inductive log_arg :=
| ArgStr (s : string)
| ArgInt (n : Z)
| ArgFloat (x : float)
| ArgExn (e : exn).

Inductive capability := PredictProba | Predict.

(** What a handler does that can be observed from outside. *)
Inductive event :=
| Log (level : log_level) (fmt : string) (args : list log_arg)
| Stat (p : Path)
| Listdir (p : Path)
| Open (p : Path)
| Unpickle (p : Path)
| Invoke (c : capability) (input : list (list float)).

(** The file system and the history of events, the latest first. *)
Record World := mkWorld { fsys : FS.node; history : list event }.

Definition M (A : Type) : Type := World -> outcome A * World.

Definition ret {A} (a : A) : M A := fun w => (Return a, w).

Definition bind {A B} (m : M A) (k : A -> M B) : M B :=
  fun w =>
    match m w with
    | (Return a, w') => k a w'
    | (Raise e, w') => (Raise e, w')
    end.

(** A computation without effects that may raise. *)
Definition lift {A} (o : outcome A) : M A := fun w => (o, w).

Definition emit (e : event) : M unit :=
  fun w => (Return tt, mkWorld (fsys w) (e :: history w)).

(** A query of the file system. *)
Definition query {A} (f : FS.node -> outcome A) : M A :=
  fun w => (f (fsys w), w).

(** [try: body  except ... as e: handler e]; an exception raised by the
    handler itself is not handled again. *)
Definition try_except {A} (body : M A) (handler : exn -> M A) : M A :=
  fun w =>
    match body w with
    | (Return a, w') => (Return a, w')
    | (Raise e, w') => handler e w'
    end.

End Runtime.
Export Runtime.

Notation "x <- m ;; k" := (bind m (fun x => k))
  (at level 61, m at next level, right associativity).
Notation "m ;; k" := (bind m (fun _ => k))
  (at level 61, right associativity).

Module IO.

Definition logging_info (fmt : string) (args : list log_arg) : M unit :=
  emit (Log INFO fmt args).

Definition logging_error (fmt : string) (args : list log_arg) : M unit :=
  emit (Log ERROR fmt args).

(** [p.exists()] *)
Definition path_exists (p : Path) : M bool :=
  emit (Stat p) ;; query (fun fs => Return (FS.exists_ fs p)).

(** [p.is_dir()] *)
Definition path_is_dir (p : Path) : M bool :=
  emit (Stat p) ;; query (fun fs => Return (FS.is_dir fs p)).

(** [p.iterdir()], consumed to the end: the children of [p], each the path
    [p] extended by the entry's name. *)
Definition iterdir (p : Path) : M (list Path) :=
  emit (Listdir p) ;;
  names <- query (fun fs => FS.listdir fs p) ;;
  ret (map (fun n => (p ++ [n])%list) names).

(** [open(p, "rb")]: an open file, which remembers its path. *)
Definition open_rb (p : Path) : M (Path * outcome probe) :=
  emit (Open p) ;;
  content <- query (fun fs => FS.open_rb fs p) ;;
  ret (p, content).

(** [pickle.load(f)] *)
Definition pickle_load (f : Path * outcome probe) : M probe :=
  emit (Unpickle (fst f)) ;; lift (snd f).

(** Calling a capability of the probe on the input. *)
Definition invoke {A} (c : capability)
  (method : list (list float) -> outcome A) (input : list (list float)) : M A :=
  emit (Invoke c input) ;; lift (method input).

End IO.
Export IO.

(* ================================================================== *)
(** ** The pydantic models *)
(* ================================================================== *)

Module PredictRequest.
Record t := mk {
  model : string;
  probe_type : string;
  layer : Z;
  primary_activations : list float;
  text_activations : list float
}.
End PredictRequest.

Module PredictResponse.
Record t := mk {
  model : string;
  probe_type : string;
  layer : Z;
  predicted_probability : float
}.
End PredictResponse.

Module ProbeInfo.
Record t := mk {
  model : string;
  probe_type : string;
  layers : list Z
}.
End ProbeInfo.

Module ProbesResponse.
Record t := mk { probes : list ProbeInfo.t }.
End ProbesResponse.

Module Pydantic.

(** The request body as pydantic's JSON parser and type coercion present
    it to the model.  For each field of the schema the object either has
    no such key, or a value that does not coerce to the field's type
    (pydantic's message for it is carried along), or a value of that type.
    A list field fails as a whole (not a list) or at some of its items,
    each reported with its index.  Keys outside the schema are ignored by
    the model. *)
Inductive scalar_input (A : Type) :=
| Absent
| IllTyped (message : string)
| Value (a : A).
Arguments Absent {A}.
Arguments IllTyped {A} message.
Arguments Value {A} a.

Inductive list_input (A : Type) :=
| ListAbsent
| ListIllTyped (message : string)
| ListBadItems (bad : nat * string) (more : list (nat * string))
| ListValue (l : list A).
Arguments ListAbsent {A}.
Arguments ListIllTyped {A} message.
Arguments ListBadItems {A} bad more.
Arguments ListValue {A} l.

Record JsonObject := mkObject {
  in_model : scalar_input string;
  in_probe_type : scalar_input string;
  in_layer : scalar_input Z;
  in_primary_activations : list_input float;
  in_text_activations : list_input float
}.

Inductive Body :=
| NotJson (detail : string)
| JsonNonObject
| Json (o : JsonObject).

(** The result of validating one field: its errors, or its value. *)
Definition checked (A : Type) : Type := (list ErrorDetails + A)%type.

Definition errors_of {A} (c : checked A) : list ErrorDetails :=
  match c with inl es => es | inr _ => [] end.

(** [Field(...)]: a required field. *)
Definition required {A} (field : string) (x : scalar_input A) : checked A :=
  match x with
  | Absent => inl [mkError [LocField field] "Field required"]
  | IllTyped m => inl [mkError [LocField field] m]
  | Value a => inr a
  end.

(** [Field(default=d)] *)
Definition with_default {A} (field : string) (d : A) (x : scalar_input A)
  : checked A :=
  match x with
  | Absent => inr d
  | IllTyped m => inl [mkError [LocField field] m]
  | Value a => inr a
  end.

(** [ge=0] on an [int] field. *)
Definition ge_0 (field : string) (c : checked Z) : checked Z :=
  match c with
  | inl es => inl es
  | inr n =>
      if (n <? 0)%Z
      then inl [mkError [LocField field]
                  "Input should be greater than or equal to 0"]
      else inr n
  end.

(** A required [List[float]] field, before its field validator runs. *)
Definition required_list {A} (field : string) (x : list_input A)
  : checked (list A) :=
  match x with
  | ListAbsent => inl [mkError [LocField field] "Field required"]
  | ListIllTyped m => inl [mkError [LocField field] m]
  | ListBadItems bad more =>
      inl (map (fun b => mkError [LocField field; LocIndex (fst b)] (snd b))
             (bad :: more))
  | ListValue l => inr l
  end.

(** An "after" [field_validator]: it runs on a value that passed the
    field's own validation, and a [ValueError] it raises becomes an error
    of the field. *)
Definition field_validator {A} (field : string) (f : A -> outcome A)
  (c : checked A) : outcome (checked A) :=
  match c with
  | inl es => Return (inl es)
  | inr v =>
      match f v with
      | Return v' => Return (inr v')
      | Raise (OtherException cls text) =>
          if cls =? "ValueError"
          then Return (inl [mkError [LocField field] ("Value error, " ++ text)])
          else Raise (OtherException cls text)
      | Raise e => Raise e
      end
  end.

End Pydantic.
Export Pydantic.

(* ================================================================== *)
(** ** [function_app.py] *)
(* ================================================================== *)

Module FunctionApp.

(** The JSON documents the handlers send, before serialisation. *)
Inductive JsonBody :=
| HealthJson (status message : string)
| ErrorJson (error : string)
| ValidationJson (error : string) (details : list (loc_item * string))
| PredictJson (r : PredictResponse.t)
| ProbesJson (r : ProbesResponse.t).

(** [func.HttpResponse(body, status_code=..., mimetype=...)] *)
Record HttpResponse := mkResponse {
  body : JsonBody;
  status_code : Z;
  mimetype : string
}.

Definition json_response (b : JsonBody) (code : Z) : HttpResponse :=
  mkResponse b code "application/json".

(** [PredictRequest.validate_activations_length] *)
Definition validate_activations_length (v : list float) : outcome (list float) :=
  if negb (length v =? 4096)%nat
  then ValueError "Activations must have exactly 4096 dimensions"
  else Return v.

(** [PredictRequest.model_validate_json(body)].  The fields are validated
    in the order the class declares them and every field's errors are
    collected; a body that is not JSON, or not an object, is reported as one
    error whose [loc] is the empty tuple. *)
Definition PredictRequest_model_validate_json (b : Body)
  : outcome PredictRequest.t :=
  match b with
  | NotJson detail =>
      Raise (ValidationError [mkError [] ("Invalid JSON: " ++ detail)])
  | JsonNonObject =>
      Raise (ValidationError [mkError [] "Input should be an object"])
  | Json o =>
      let c_model := required "model" (in_model o) in
      let c_probe_type :=
        with_default "probe_type" "linear_probe" (in_probe_type o) in
      let c_layer := ge_0 "layer" (required "layer" (in_layer o)) in
      match field_validator "primary_activations" validate_activations_length
              (required_list "primary_activations" (in_primary_activations o))
      with
      | Raise e => Raise e
      | Return c_primary =>
      match field_validator "text_activations" validate_activations_length
              (required_list "text_activations" (in_text_activations o))
      with
      | Raise e => Raise e
      | Return c_text =>
          match c_model, c_probe_type, c_layer, c_primary, c_text with
          | inr m, inr pt, inr l, inr p, inr t =>
              Return (PredictRequest.mk m pt l p t)
          | _, _, _, _, _ =>
              Raise (ValidationError
                       (errors_of c_model ++ errors_of c_probe_type ++
                        errors_of c_layer ++ errors_of c_primary ++
                        errors_of c_text)%list)
          end
      end
      end
  end.

(** [PredictResponse(model=..., probe_type=..., layer=...,
    predicted_probability=p)]: the only constraint that can fail on these
    arguments is [ge=0.0, le=1.0] on the float; each bound is an IEEE
    comparison. *)
Definition PredictResponse_init (model probe_type : string) (layer : Z)
  (p : float) : outcome PredictResponse.t :=
  if (1 <? p)%float then
    Raise (ValidationError
             [mkError [LocField "predicted_probability"]
                "Input should be less than or equal to 1"])
  else if (p <? 0)%float then
    Raise (ValidationError
             [mkError [LocField "predicted_probability"]
                "Input should be greater than or equal to 0"])
  else Return (PredictResponse.mk model probe_type layer p).

(** [err["loc"][-1]] *)
Definition last_of_loc (l : list loc_item) : outcome loc_item :=
  match List.rev l with
  | x :: _ => Return x
  | [] => IndexError "tuple index out of range"
  end.

(** [[{"field": err["loc"][-1], "message": err["msg"]} for err in errors]] *)
Fixpoint details_of (errors : list ErrorDetails)
  : outcome (list (loc_item * string)) :=
  match errors with
  | [] => Return []
  | err :: rest =>
      match last_of_loc (loc err) with
      | Raise e => Raise e
      | Return field =>
          match details_of rest with
          | Raise e => Raise e
          | Return ds => Return ((field, msg err) :: ds)
          end
      end
  end.

Section App.

(** [Path(__file__).parent], the directory the application is deployed
    in. *)
Variable app_dir : Path.

(** [str(e)] for a pydantic [ValidationError]. *)
Variable validation_error_text : list ErrorDetails -> string.

Definition exn_text (e : exn) : string :=
  match e with
  | ValidationError errors => validation_error_text errors
  | FileNotFoundError text => text
  | OtherException _ text => text
  end.

Definition probes_root : Path :=
  app_dir </> "models" </> "trained_linear_probes".

(** The loop of [_get_available_layers]. *)
Fixpoint layers_loop (dirs : list Path) (layers : list Z) : M (list Z) :=
  match dirs with
  | [] => ret layers
  | layer_dir :: rest =>
      d <- path_is_dir layer_dir ;;
      if d && isdigit (name layer_dir) then
        layer_num <- lift (int (name layer_dir)) ;;
        let config_file := layer_dir </> "config.json" in
        let model_file := layer_dir </> "model.pickle" in
        c <- path_exists config_file ;;
        if c then
          m <- path_exists model_file ;;
          if m then layers_loop rest (layers ++ [layer_num])%list
          else layers_loop rest layers
        else layers_loop rest layers
      else layers_loop rest layers
  end.

Definition _get_available_layers (model_dir : Path) : M (list Z) :=
  entries <- iterdir model_dir ;;
  layers_loop (sorted entries) [].

(** The loop of [_discover_probes]. *)
Fixpoint probes_loop (dirs : list Path) (probes : list ProbeInfo.t)
  : M (list ProbeInfo.t) :=
  match dirs with
  | [] => ret probes
  | model_dir :: rest =>
      d <- path_is_dir model_dir ;;
      if negb d then probes_loop rest probes
      else
        layers <- _get_available_layers model_dir ;;
        match layers with
        | [] => probes_loop rest probes
        | _ :: _ =>
            let probe_info :=
              ProbeInfo.mk (name model_dir) "linear_probe" layers in
            probes_loop rest (probes ++ [probe_info])%list
        end
  end.

Definition _discover_probes (probes_dir : Path) : M (list ProbeInfo.t) :=
  e <- path_exists probes_dir ;;
  if negb e then ret []
  else
    entries <- iterdir probes_dir ;;
    probes_loop entries [].

Definition health_check : M HttpResponse :=
  logging_info "Health check endpoint was triggered." [] ;;
  ret (json_response (HealthJson "healthy" "TaskTracker API is running") 200).

(** The three [except] clauses of [predict], tried in order. *)
Definition predict_except (e : exn) : M HttpResponse :=
  match e with
  | ValidationError errors =>
      logging_error "Validation error: %s" [ArgExn e] ;;
      details <- lift (details_of errors) ;;
      ret (json_response (ValidationJson "Validation failed" details) 400)
  | FileNotFoundError _ =>
      logging_error "Probe file not found: %s" [ArgExn e] ;;
      ret (json_response (ErrorJson "Probe file not found") 404)
  | OtherException _ text =>
      logging_error "Error in predict endpoint: %s" [ArgStr text] ;;
      ret (json_response (ErrorJson ("Internal server error: " ++ text)) 500)
  end.

(** The end of the [try] block: build and serialise the response. *)
Definition predict_respond (request_data : PredictRequest.t)
  (predicted_probability : float) : M HttpResponse :=
  logging_info "Predicted probability: %s" [ArgFloat predicted_probability] ;;
  response <- lift (PredictResponse_init
                      (PredictRequest.model request_data)
                      (PredictRequest.probe_type request_data)
                      (PredictRequest.layer request_data)
                      predicted_probability) ;;
  ret (json_response (PredictJson response) 200).

(** The [try] block of [predict]. *)
Definition predict_try (req_body : Body) : M HttpResponse :=
  request_data <- lift (PredictRequest_model_validate_json req_body) ;;
  logging_info "Request validated for model: %s, layer: %s"
    [ArgStr (PredictRequest.model request_data);
     ArgInt (PredictRequest.layer request_data)] ;;
  let probe_dir :=
    app_dir </> "models" </> "trained_linear_probes"
            </> PredictRequest.model request_data
            </> str (PredictRequest.layer request_data) in
  let model_file := probe_dir </> "model.pickle" in
  present <- path_exists model_file ;;
  if negb present then
    let error_msg :=
      "Probe not found for model '" ++ PredictRequest.model request_data
      ++ "' at layer " ++ str (PredictRequest.layer request_data) in
    ret (json_response (ErrorJson error_msg) 404)
  else
    f <- open_rb model_file ;;
    probe_model <- pickle_load f ;;
    logging_info "Successfully loaded probe for %s layer %s"
      [ArgStr (PredictRequest.model request_data);
       ArgInt (PredictRequest.layer request_data)] ;;
    let delta := np_sub (PredictRequest.primary_activations request_data)
                        (PredictRequest.text_activations request_data) in
    (* the difference of two sequences has one dimension:
       [delta.reshape(1, -1)] makes it the single row of the input *)
    let delta := [delta] in
    match attr_predict_proba probe_model with
    | Some predict_proba =>
        prediction_proba <- invoke PredictProba predict_proba delta ;;
        predicted_probability <-
          lift (if (1 <? ncols prediction_proba)%nat
                then getitem2 prediction_proba 0 1
                else getitem2 prediction_proba 0 0) ;;
        predict_respond request_data predicted_probability
    | None =>
        match attr_predict probe_model with
        | Some predict =>
            prediction <- invoke Predict predict delta ;;
            predicted_probability <- lift (getitem1 prediction 0) ;;
            predict_respond request_data predicted_probability
        | None =>
            ret (json_response
                   (ErrorJson "Probe model does not support prediction") 500)
        end
    end.

Definition predict (req_body : Body) : M HttpResponse :=
  logging_info "Predict endpoint was triggered." [] ;;
  try_except (predict_try req_body) predict_except.

Definition list_probes : M HttpResponse :=
  logging_info "List probes endpoint was triggered." [] ;;
  try_except
    (let probes_dir := app_dir </> "models" </> "trained_linear_probes" in
     probes <- _discover_probes probes_dir ;;
     let response := ProbesResponse.mk probes in
     ret (json_response (ProbesJson response) 200))
    (fun e =>
       logging_error "Error in list_probes endpoint: %s" [ArgStr (exn_text e)] ;;
       ret (json_response
              (ErrorJson ("Internal server error: " ++ exn_text e)) 500)).

(** The routes registered on [app]. *)
Inductive HttpRequest :=
| GET_health
| GET_v1_probes
| POST_v1_predict (req_body : Body).

Definition dispatch (req : HttpRequest) : M HttpResponse :=
  match req with
  | GET_health => health_check
  | GET_v1_probes => list_probes
  | POST_v1_predict req_body => predict req_body
  end.

(** The service handling a sequence of requests, one after the other. *)
Fixpoint serve (reqs : list HttpRequest) (w : World)
  : list (outcome HttpResponse) * World :=
  match reqs with
  | [] => ([], w)
  | req :: rest =>
      let (r, w') := dispatch req w in
      let (rs, w'') := serve rest w' in
      (r :: rs, w'')
  end.

End App.

End FunctionApp.
Export FunctionApp.

(* ================================================================== *)
(** ** Vocabulary of the properties *)
(* ================================================================== *)

Module Props.

(** A computation [reads_only] when it leaves the file system as it found
    it, only adds events to the history, and its result depends on the
    file system alone, not on the history of earlier events. *)
Definition reads_only {A} (m : M A) : Prop :=
  forall w,
    fsys (snd (m w)) = fsys w /\
    (exists evs, history (snd (m w)) = (evs ++ history w)%list) /\
    forall w', fsys w' = fsys w -> fst (m w') = fst (m w).

(** The result of a computation on a file system, from an empty history. *)
Definition value {A} (m : M A) (fs : FS.node) : outcome A :=
  fst (m (mkWorld fs [])).

(** Sequencing of results. *)
Definition and_then {A B} (o : outcome A) (k : A -> outcome B) : outcome B :=
  match o with
  | Return a => k a
  | Raise e => Raise e
  end.

(** [<probes_root>/<model>/<layer>/model.pickle] for a validated request. *)
Definition artifact_path (app_dir : Path) (r : PredictRequest.t) : Path :=
  app_dir </> "models" </> "trained_linear_probes"
          </> PredictRequest.model r
          </> str (PredictRequest.layer r)
          </> "model.pickle".

(** The one-row input the probe is called on. *)
Definition probe_input (r : PredictRequest.t) : list (list float) :=
  [np_sub (PredictRequest.primary_activations r)
          (PredictRequest.text_activations r)].

(** The first two log records of [predict] on a validated request. *)
Definition validated_log (r : PredictRequest.t) : list event :=
  [Log INFO "Request validated for model: %s, layer: %s"
     [ArgStr (PredictRequest.model r); ArgInt (PredictRequest.layer r)];
   Log INFO "Predict endpoint was triggered." []].

Definition not_found_message (r : PredictRequest.t) : string :=
  "Probe not found for model '" ++ PredictRequest.model r
  ++ "' at layer " ++ str (PredictRequest.layer r).




(** The [{field, message}] pairs a scalar field contributes. *)
Definition scalar_details {A} (field : string) (is_required : bool)
  (x : scalar_input A) : list (loc_item * string) :=
  match x with
  | Absent => if is_required then [(LocField field, "Field required")] else []
  | IllTyped m => [(LocField field, m)]
  | Value _ => []
  end.

Definition length_message : string :=
  "Value error, Activations must have exactly 4096 dimensions".

Definition ge_message : string :=
  "Input should be greater than or equal to 0".


(** The pairs of the [layer] field: one under its name when the integer
    is negative. *)
Definition layer_details (x : scalar_input Z) : list (loc_item * string) :=
  match x with
  | Value l => if (l <? 0)%Z then [(LocField "layer", ge_message)] else []
  | _ => scalar_details "layer" true x
  end.

(** The pairs of an activation field: one under its name when the sequence
    does not have 4096 elements.  An item that is not a number is reported
    by pydantic at [(field, index)], and the handler keeps the last
    element of that location. *)
Definition activation_details (field : string) (x : list_input float)
  : list (loc_item * string) :=
  match x with
  | ListAbsent => [(LocField field, "Field required")]
  | ListIllTyped m => [(LocField field, m)]
  | ListBadItems bad more =>
      map (fun b => (LocIndex (fst b), snd b)) (bad :: more)
  | ListValue v =>
      if (length v =? 4096)%nat then [] else [(LocField field, length_message)]
  end.

(** The details list of a body, field after field in the order of the
    schema. *)
Definition details_for (o : JsonObject) : list (loc_item * string) :=
  (scalar_details "model" true (in_model o) ++
   scalar_details "probe_type" false (in_probe_type o) ++
   layer_details (in_layer o) ++
   activation_details "primary_activations" (in_primary_activations o) ++
   activation_details "text_activations" (in_text_activations o))%list.



(** An activation field after its field validator. *)
Definition checked_activations (field : string) (x : list_input float)
  : checked (list float) :=
  match x with
  | ListValue v =>
      if (length v =? 4096)%nat then inr v
      else inl [mkError [LocField field] length_message]
  | _ => required_list field x
  end.

(** What [predict] still does once the probe is loaded. *)
Definition after_load (r : PredictRequest.t) (p : probe) : M HttpResponse :=
  try_except
    (match attr_predict_proba p with
     | Some f =>
         a <- invoke PredictProba f (probe_input r) ;;
         v <- lift (if (1 <? ncols a)%nat
                    then getitem2 a 0 1 else getitem2 a 0 0) ;;
         predict_respond r v
     | None =>
         match attr_predict p with
         | Some g =>
             y <- invoke Predict g (probe_input r) ;;
             v <- lift (getitem1 y 0) ;;
             predict_respond r v
         | None =>
             ret (json_response
                    (ErrorJson "Probe model does not support prediction") 500)
         end
     end)
    predict_except.


(** The 200 response carrying a probability. *)
Definition prediction_response (r : PredictRequest.t) (v : float)
  : HttpResponse :=
  json_response
    (PredictJson
       (PredictResponse.mk (PredictRequest.model r)
          (PredictRequest.probe_type r) (PredictRequest.layer r) v))
    200.

(** The body of a 400: the fixed error string and the details. *)
Definition validation_failed (details : list (loc_item * string))
  : HttpResponse :=
  json_response (ValidationJson "Validation failed" details) 400.

(** The history once the probe of a validated request is loaded. *)
Definition loaded_history (app_dir : Path) (r : PredictRequest.t)
  : list event :=
  Log INFO "Successfully loaded probe for %s layer %s"
    [ArgStr (PredictRequest.model r); ArgInt (PredictRequest.layer r)]
  :: Unpickle (artifact_path app_dir r)
  :: Open (artifact_path app_dir r)
  :: Stat (artifact_path app_dir r)
  :: validated_log r.

(** The children of a directory, as [iterdir] yields them; none when the
    path is not a directory. *)
Definition children (fs : FS.node) (p : Path) : list Path :=
  match FS.listdir fs p with
  | Return names => map (fun n => (p ++ [n])%list) names
  | Raise _ => []
  end.

(** A layer directory the catalog counts: a directory with a digit name
    that holds both files. *)
Definition qualifies (fs : FS.node) (layer_dir : Path) : bool :=
  FS.is_dir fs layer_dir && isdigit (name layer_dir)
  && FS.exists_ fs (layer_dir </> "config.json")
  && FS.exists_ fs (layer_dir </> "model.pickle").

(** A model directory with at least one qualifying layer directory. *)
Definition listed (fs : FS.node) (model_dir : Path) : bool :=
  FS.is_dir fs model_dir && existsb (qualifies fs) (children fs model_dir).

Fixpoint has_slash (s : string) : bool :=
  match s with
  | EmptyString => false
  | String c s' => Ascii.eqb c "/"%char || has_slash s'
  end.

(** A string that names one directory entry: not empty, without a slash,
    and neither ["."] nor [".."]. *)
Definition plain_name (s : string) : bool :=
  negb (has_slash s) && negb (s =? "") && negb (s =? ".") && negb (s =? "..").

End Props.
Export Props.

(** ** Sample worlds *)

Module Sample.

Definition two_class_probe : probe :=
  mkProbe
    (Some (fun _ => Return (mkArray2 2 [[0.25%float; 0.75%float]])))
    (Some (fun _ => Return [1%float])).

Definition label_probe (label : float) : probe :=
  mkProbe None (Some (fun _ => Return [label])).

Definition bare_object : probe := mkProbe None None.

(** A [config.json]: not a pickle. *)
Definition config_json : FS.node :=
  FS.File
    (Raise (OtherException "UnpicklingError" "invalid load key, '{'.")).

Definition layer_dir (p : probe) : FS.node :=
  FS.Dir [("config.json", config_json); ("model.pickle", FS.File (Return p))].

Definition layer_dir_without_config (p : probe) : FS.node :=
  FS.Dir [("model.pickle", FS.File (Return p))].

(** A deployment under [/app] with the given entries in the probe
    repository and the given entries next to [models]. *)
Definition deployment (repository others : list (string * FS.node)) : FS.node :=
  FS.Dir
    [("app",
      FS.Dir
        (("models", FS.Dir [("trained_linear_probes", FS.Dir repository)])
         :: others))].

Definition app : Path := ["app"].

Definition activations : list float := repeat 0.5%float 4096.

Definition request (model : string) (layer : Z) : Body :=
  Json (mkObject (Value model) Absent (Value layer)
          (ListValue activations) (ListValue activations)).

Definition validated (model : string) (layer : Z) : PredictRequest.t :=
  PredictRequest.mk model "linear_probe" layer activations activations.

(** A model with layers 2 and 10, listed by the operating system in
    either order. *)
Definition fs_2_10 : FS.node :=
  deployment
    [("llama3_8b", FS.Dir [("2", layer_dir two_class_probe);
                           ("10", layer_dir two_class_probe)])] [].

Definition fs_10_2 : FS.node :=
  deployment
    [("llama3_8b", FS.Dir [("10", layer_dir two_class_probe);
                           ("2", layer_dir two_class_probe)])] [].

(** Layer 0 complete, layer 3 without its configuration file, an empty
    model directory, two label-only probes (one answering 2, one answering
    1), an object without capabilities, and a probe outside the
    repository. *)
Definition fs_mixed : FS.node :=
  deployment
    [("llama3_8b", FS.Dir [("0", layer_dir two_class_probe);
                           ("3", layer_dir_without_config two_class_probe)]);
     ("empty", FS.Dir []);
     ("labels", FS.Dir [("0", layer_dir (label_probe 2%float))]);
     ("binary", FS.Dir [("0", layer_dir (label_probe 1%float))]);
     ("bare", FS.Dir [("0", layer_dir bare_object)])]
    [("elsewhere", FS.Dir [("0", layer_dir_without_config two_class_probe)])].

Definition world (fs : FS.node) : World := mkWorld fs [].

Definition catalog_mixed : list ProbeInfo.t :=
  [ProbeInfo.mk "llama3_8b" "linear_probe" [0%Z];
   ProbeInfo.mk "labels" "linear_probe" [0%Z];
   ProbeInfo.mk "binary" "linear_probe" [0%Z];
   ProbeInfo.mk "bare" "linear_probe" [0%Z]].

Definition no_text (errors : list ErrorDetails) : string := "".

End Sample.

(** ** Vocabulary of the behaviour of the handlers *)

Module Behaviour.

(** The answer of the [except] clauses of [predict] to an exception. *)
Definition except_value (e : exn) : outcome HttpResponse :=
  match e with
  | ValidationError errors =>
      and_then (details_of errors) (fun ds => Return (validation_failed ds))
  | FileNotFoundError _ =>
      Return (json_response (ErrorJson "Probe file not found") 404)
  | OtherException _ text =>
      Return (json_response (ErrorJson ("Internal server error: " ++ text)) 500)
  end.

Definition caught (o : outcome HttpResponse) : outcome HttpResponse :=
  match o with
  | Return r => Return r
  | Raise e => except_value e
  end.

(** The outcome of building the response from a scalar. *)
Definition respond_outcome (r : PredictRequest.t) (v : float)
  : outcome HttpResponse :=
  and_then (PredictResponse_init (PredictRequest.model r)
              (PredictRequest.probe_type r) (PredictRequest.layer r) v)
    (fun resp => Return (json_response (PredictJson resp) 200)).

(** The outcome of the steps after the probe is loaded. *)
Definition probe_outcome (r : PredictRequest.t) (p : probe)
  : outcome HttpResponse :=
  match attr_predict_proba p with
  | Some f =>
      and_then (f (probe_input r)) (fun a =>
      and_then (if (1 <? ncols a)%nat
                then getitem2 a 0 1 else getitem2 a 0 0)
        (respond_outcome r))
  | None =>
      match attr_predict p with
      | Some g =>
          and_then (g (probe_input r)) (fun y =>
          and_then (getitem1 y 0) (respond_outcome r))
      | None =>
          Return (json_response
                    (ErrorJson "Probe model does not support prediction") 500)
      end
  end.

(** The outcome of the [try] block of [predict] on a file system, the
    events left aside. *)
Definition try_outcome (app_dir : Path) (fs : FS.node) (b : Body)
  : outcome HttpResponse :=
  and_then (PredictRequest_model_validate_json b) (fun r =>
    if FS.exists_ fs (artifact_path app_dir r) then
      and_then (FS.open_rb fs (artifact_path app_dir r)) (fun content =>
      and_then content (probe_outcome r))
    else Return (json_response (ErrorJson (not_found_message r)) 404)).

(** The pair the handler makes of an error: the last element of its
    location and its message. *)
Definition entry (e : ErrorDetails) : loc_item * string :=
  (last (loc e) (LocIndex 0), msg e).



Definition internal_error (text : string) : HttpResponse :=
  json_response (ErrorJson ("Internal server error: " ++ text)) 500.

Definition probe_file_not_found : HttpResponse :=
  json_response (ErrorJson "Probe file not found") 404.

Definition catalog_response (ps : list ProbeInfo.t) : HttpResponse :=
  json_response (ProbesJson (ProbesResponse.mk ps)) 200.

(** An outcome with the [probe_type] of a prediction replaced. *)
Definition retyped (probe_type : string) (o : outcome HttpResponse)
  : outcome HttpResponse :=
  match o with
  | Return (mkResponse (PredictJson x) code mime) =>
      Return (mkResponse
                (PredictJson
                   (PredictResponse.mk (PredictResponse.model x) probe_type
                      (PredictResponse.layer x)
                      (PredictResponse.predicted_probability x)))
                code mime)
  | _ => o
  end.

(** [a <= b] on paths: [b < a] does not hold. *)
Definition path_le (a b : Path) : Prop := path_ltb b a = false.

(** A computation [emits P] when every event it adds to the history
    satisfies [P]. *)
Definition emits {A} (P : event -> Prop) (m : M A) : Prop :=
  forall w,
    exists evs,
      history (snd (m w)) = (evs ++ history w)%list /\ Forall P evs.

(** Events of the catalog: log records and queries of the directory
    tree. *)
Definition is_lookup (e : event) : Prop :=
  match e with
  | Log _ _ _ | Stat _ | Listdir _ => True
  | Open _ | Unpickle _ | Invoke _ _ => False
  end.

(** Events of a prediction on a body: log records, calls of the probe,
    and the existence test, opening and unpickling of the artifact of the
    validated request; no directory is listed. *)
Definition touches_only_artifact (app_dir : Path) (b : Body) (e : event)
  : Prop :=
  match e with
  | Log _ _ _ | Invoke _ _ => True
  | Listdir _ => False
  | Stat p | Open p | Unpickle p =>
      exists r,
        PredictRequest_model_validate_json b = Return r /\
        p = artifact_path app_dir r
  end.

End Behaviour.
Export Behaviour.

(** ** Sample worlds with artifacts that fail *)

Module Edge.

Definition truncated_pickle : FS.node :=
  FS.File (Raise (OtherException "UnpicklingError"
                    "pickle data was truncated")).

(** A pickle whose loading looks for a file that is not there. *)
Definition pickle_missing_module : FS.node :=
  FS.File (Raise (FileNotFoundError
                    "[Errno 2] No such file or directory: 'weights.npy'")).

Definition raising_probe : probe :=
  mkProbe
    (Some (fun _ => Raise (OtherException "ValueError"
                             "X has 4096 features, but expecting 2048")))
    None.

Definition empty_output_probe : probe :=
  mkProbe (Some (fun _ => Return (mkArray2 2 []))) None.

Definition layer_with (artifact : FS.node) : FS.node :=
  FS.Dir [("config.json", Sample.config_json); ("model.pickle", artifact)].

(** Layer 0: the artifact is a directory; layer 1: a truncated pickle;
    layer 2: a pickle that raises [FileNotFoundError]; layer 3: a probe
    that raises; layer 4: a probe that returns no row. *)
Definition fs_broken : FS.node :=
  Sample.deployment
    [("llama3_8b",
      FS.Dir [("0", layer_with (FS.Dir []));
              ("1", layer_with truncated_pickle);
              ("2", layer_with pickle_missing_module);
              ("3", layer_with (FS.File (Return raising_probe)));
              ("4", layer_with (FS.File (Return empty_output_probe)))])]
    [].

(** The repository root is a regular file. *)
Definition fs_root_is_file : FS.node :=
  FS.Dir
    [("app",
      FS.Dir [("models", FS.Dir [("trained_linear_probes",
                                  Sample.config_json)])])].

(** The name made of the character U+00B2, SUPERSCRIPT TWO. *)
Definition superscript_two : string := String (ascii_of_nat 178) "".

Definition fs_superscript : FS.node :=
  Sample.deployment
    [("llama3_8b",
      FS.Dir [("0", Sample.layer_dir Sample.two_class_probe);
              (superscript_two, Sample.layer_dir Sample.two_class_probe)])]
    [].

(** A request without its [model] field. *)
Definition without_model : Body :=
  Json (mkObject Absent Absent (Value 0%Z)
          (ListValue Sample.activations) (ListValue Sample.activations)).

(** A request that names its probe type. *)
Definition typed_request (model probe_type : string) (layer : Z) : Body :=
  Json (mkObject (Value model) (Value probe_type) (Value layer)
          (ListValue Sample.activations) (ListValue Sample.activations)).

Definition typed_validated (model probe_type : string) (layer : Z)
  : PredictRequest.t :=
  PredictRequest.mk model probe_type layer
    Sample.activations Sample.activations.

End Edge.

(* ================================================================== *)
(** * Properties *)
(* ================================================================== *)

(** ** Handlers only read the file system *)

Lemma reads_only_ret {A} (a : A) : reads_only (ret a).
Proof.
  intro w; split; [reflexivity | split; [now exists [] | intros; reflexivity]].
Qed.

Lemma reads_only_lift {A} (o : outcome A) : reads_only (lift o).
Proof.
  intro w; split; [reflexivity | split; [now exists [] | intros; reflexivity]].
Qed.

Lemma reads_only_emit e : reads_only (emit e).
Proof.
  intro w; split; [reflexivity | split; [now exists [e] | intros; reflexivity]].
Qed.

Lemma reads_only_query {A} (f : FS.node -> outcome A) : reads_only (query f).
Proof.
  intro w; split; [reflexivity | split; [now exists [] | ]].
  intros w' E. unfold query. simpl. now rewrite E.
Qed.

Lemma reads_only_bind {A B} (m : M A) (k : A -> M B) :
  reads_only m -> (forall a, reads_only (k a)) -> reads_only (bind m k).
Proof.
  intros Hm Hk w. unfold bind.
  destruct (Hm w) as (Hfs & [evs Hev] & Hind).
  split; [ | split].
  - destruct (m w) as [[a | e] w1] eqn:E; simpl in *.
    + destruct (Hk a w1) as (H1 & _). now rewrite H1.
    + exact Hfs.
  - destruct (m w) as [[a | e] w1] eqn:E; simpl in *.
    + destruct (Hk a w1) as (_ & [evs' H1] & _).
      exists (evs' ++ evs)%list. rewrite H1, Hev. now rewrite app_assoc.
    + now exists evs.
  - intros w' Ew'.
    specialize (Hind w' Ew').
    destruct (Hm w') as (Hfs' & _).
    destruct (m w) as [[a | e] w1] eqn:E;
      destruct (m w') as [[a' | e'] w1'] eqn:E'; simpl in *;
      try discriminate.
    + injection Hind as ->.
      destruct (Hk a w1) as (_ & _ & H2). apply H2. congruence.
    + congruence.
Qed.

Lemma reads_only_try_except {A} (body : M A) (handler : exn -> M A) :
  reads_only body -> (forall e, reads_only (handler e)) ->
  reads_only (try_except body handler).
Proof.
  intros Hm Hk w. unfold try_except.
  destruct (Hm w) as (Hfs & [evs Hev] & Hind).
  split; [ | split].
  - destruct (body w) as [[a | e] w1] eqn:E; simpl in *.
    + exact Hfs.
    + destruct (Hk e w1) as (H1 & _). now rewrite H1.
  - destruct (body w) as [[a | e] w1] eqn:E; simpl in *.
    + now exists evs.
    + destruct (Hk e w1) as (_ & [evs' H1] & _).
      exists (evs' ++ evs)%list. rewrite H1, Hev. now rewrite app_assoc.
  - intros w' Ew'.
    specialize (Hind w' Ew').
    destruct (Hm w') as (Hfs' & _).
    destruct (body w) as [[a | e] w1] eqn:E;
      destruct (body w') as [[a' | e'] w1'] eqn:E'; simpl in *;
      try discriminate.
    + exact Hind.
    + injection Hind as ->.
      destruct (Hk e w1) as (_ & _ & H2). apply H2. congruence.
Qed.

Create HintDb reads.
#[local] Hint Resolve reads_only_ret reads_only_lift reads_only_emit
  reads_only_query : reads.

Ltac reads_only_tac :=
  repeat first
    [ apply reads_only_ret | apply reads_only_lift | apply reads_only_emit
    | apply reads_only_query | apply reads_only_try_except
    | apply reads_only_bind | intro
    | match goal with
      | |- reads_only (if ?b then _ else _) => destruct b
      | |- reads_only (match ?x with _ => _ end) => destruct x
      end ].

Lemma reads_only_path_exists p : reads_only (path_exists p).
Proof. unfold path_exists. reads_only_tac. Qed.

Lemma reads_only_path_is_dir p : reads_only (path_is_dir p).
Proof. unfold path_is_dir. reads_only_tac. Qed.

Lemma reads_only_iterdir p : reads_only (iterdir p).
Proof. unfold iterdir. reads_only_tac. Qed.

Lemma reads_only_open_rb p : reads_only (IO.open_rb p).
Proof. unfold IO.open_rb. reads_only_tac. Qed.

Lemma reads_only_pickle_load f : reads_only (pickle_load f).
Proof. unfold pickle_load. reads_only_tac. Qed.

Lemma reads_only_invoke {A} c (f : list (list float) -> outcome A) x :
  reads_only (invoke c f x).
Proof. unfold invoke. reads_only_tac. Qed.

Lemma reads_only_logging_info fmt args : reads_only (logging_info fmt args).
Proof. apply reads_only_emit. Qed.

Lemma reads_only_logging_error fmt args : reads_only (logging_error fmt args).
Proof. apply reads_only_emit. Qed.

#[local] Hint Resolve reads_only_path_exists reads_only_path_is_dir
  reads_only_iterdir reads_only_open_rb reads_only_pickle_load
  reads_only_invoke reads_only_logging_info reads_only_logging_error : reads.

(** The result of a read-only computation is its [value] on the current
    file system, and values compose. *)
Lemma value_eq {A} (m : M A) w : reads_only m -> fst (m w) = value m (fsys w).
Proof.
  intro H. unfold value.
  destruct (H (mkWorld (fsys w) [])) as (_ & _ & Hind).
  apply Hind. reflexivity.
Qed.

Lemma value_bind {A B} (m : M A) (k : A -> M B) fs :
  reads_only m -> (forall a, reads_only (k a)) ->
  value (bind m k) fs = and_then (value m fs) (fun a => value (k a) fs).
Proof.
  intros Hm Hk. unfold value at 1 2. unfold bind.
  destruct (Hm (mkWorld fs [])) as (Hfs & _ & _).
  destruct (m (mkWorld fs [])) as [[a | e] w1]; simpl in *.
  - rewrite (value_eq (k a) w1 (Hk a)). now rewrite Hfs.
  - reflexivity.
Qed.

Lemma value_ret {A} (a : A) fs : value (ret a) fs = Return a.
Proof. reflexivity. Qed.

Lemma value_lift {A} (o : outcome A) fs : value (lift o) fs = o.
Proof. reflexivity. Qed.

Lemma value_path_exists p fs :
  value (path_exists p) fs = Return (FS.exists_ fs p).
Proof. reflexivity. Qed.

Lemma value_path_is_dir p fs :
  value (path_is_dir p) fs = Return (FS.is_dir fs p).
Proof. reflexivity. Qed.

Lemma value_iterdir p fs :
  value (iterdir p) fs =
  and_then (FS.listdir fs p)
    (fun names => Return (map (fun n => (p ++ [n])%list) names)).
Proof.
  unfold value, iterdir, bind, emit, query, ret. simpl.
  destruct (FS.listdir fs p); reflexivity.
Qed.

Section AppProperties.

Variable app_dir : Path.
Variable validation_error_text : list ErrorDetails -> string.

Notation list_probes := (list_probes app_dir validation_error_text).
Notation predict := (predict app_dir).
Notation dispatch := (dispatch app_dir validation_error_text).
Notation serve := (serve app_dir validation_error_text).

Lemma reads_only_layers_loop dirs :
  forall layers, reads_only (layers_loop dirs layers).
Proof.
  induction dirs as [| d rest IH]; intro layers; simpl.
  - apply reads_only_ret.
  - apply reads_only_bind; [auto with reads | ].
    intros isd. destruct (isd && isdigit (name d)); [ | apply IH].
    apply reads_only_bind; [auto with reads | intro n].
    apply reads_only_bind; [auto with reads | intros [|]]; [ | apply IH].
    apply reads_only_bind; [auto with reads | intros [|]]; apply IH.
Qed.

Lemma reads_only_get_available_layers d :
  reads_only (_get_available_layers d).
Proof.
  unfold _get_available_layers.
  apply reads_only_bind; [auto with reads | intro].
  apply reads_only_layers_loop.
Qed.

Lemma reads_only_probes_loop dirs :
  forall probes, reads_only (probes_loop dirs probes).
Proof.
  induction dirs as [| d rest IH]; intro probes; simpl.
  - apply reads_only_ret.
  - apply reads_only_bind; [auto with reads | ].
    intros [|]; simpl; [ | apply IH].
    apply reads_only_bind; [apply reads_only_get_available_layers | ].
    intros [| n ls]; apply IH.
Qed.

Lemma reads_only_discover_probes d : reads_only (_discover_probes d).
Proof.
  unfold _discover_probes.
  apply reads_only_bind; [auto with reads | intros [|]]; simpl.
  - apply reads_only_bind; [auto with reads | intro].
    apply reads_only_probes_loop.
  - apply reads_only_ret.
Qed.

Lemma reads_only_health_check : reads_only health_check.
Proof. unfold health_check. reads_only_tac. Qed.

Lemma reads_only_list_probes : reads_only list_probes.
Proof.
  unfold FunctionApp.list_probes.
  apply reads_only_bind; [auto with reads | intro].
  apply reads_only_try_except.
  - apply reads_only_bind; [apply reads_only_discover_probes | intro].
    apply reads_only_ret.
  - intro e. reads_only_tac.
Qed.

Lemma reads_only_predict_respond r v : reads_only (predict_respond r v).
Proof. unfold predict_respond. reads_only_tac. Qed.

Lemma reads_only_predict_except e : reads_only (predict_except e).
Proof. unfold predict_except. destruct e; reads_only_tac. Qed.

Lemma reads_only_after_load r p : reads_only (after_load r p).
Proof.
  unfold after_load. apply reads_only_try_except.
  - destruct (attr_predict_proba p).
    + apply reads_only_bind; [auto with reads | intro a].
      apply reads_only_bind; [auto with reads | intro v].
      apply reads_only_predict_respond.
    + destruct (attr_predict p).
      * apply reads_only_bind; [auto with reads | intro a].
        apply reads_only_bind; [auto with reads | intro v].
        apply reads_only_predict_respond.
      * apply reads_only_ret.
  - apply reads_only_predict_except.
Qed.

Lemma reads_only_predict_try b : reads_only (predict_try app_dir b).
Proof.
  unfold predict_try.
  apply reads_only_bind; [auto with reads | intro r].
  apply reads_only_bind; [auto with reads | intros _].
  apply reads_only_bind; [auto with reads | intros [|]]; simpl.
  2: apply reads_only_ret.
  apply reads_only_bind; [auto with reads | intro f].
  apply reads_only_bind; [auto with reads | intro p].
  apply reads_only_bind; [auto with reads | intros _].
  destruct (attr_predict_proba p).
  - apply reads_only_bind; [auto with reads | intro a].
    apply reads_only_bind; [auto with reads | intro v].
    apply reads_only_predict_respond.
  - destruct (attr_predict p).
    + apply reads_only_bind; [auto with reads | intro a].
      apply reads_only_bind; [auto with reads | intro v].
      apply reads_only_predict_respond.
    + apply reads_only_ret.
Qed.

Lemma reads_only_predict b : reads_only (predict b).
Proof.
  unfold FunctionApp.predict.
  apply reads_only_bind; [auto with reads | intro].
  apply reads_only_try_except.
  - apply reads_only_predict_try.
  - apply reads_only_predict_except.
Qed.

Lemma reads_only_dispatch req : reads_only (dispatch req).
Proof.
  destruct req; simpl.
  - apply reads_only_health_check.
  - apply reads_only_list_probes.
  - apply reads_only_predict.
Qed.

(** ** The prediction pipeline, step by step *)

Ltac run :=
  cbv [FunctionApp.predict predict_try predict_except predict_respond
       after_load try_except bind ret lift emit query
       logging_info logging_error path_exists path_is_dir
       IO.open_rb pickle_load invoke FS.exists_ FS.open_rb];
  cbn [fsys history fst snd negb].

Lemma predict_then_after_load w b r p :
  PredictRequest_model_validate_json b = Return r ->
  FS.resolve (fsys w) (artifact_path app_dir r) = Some (FS.File (Return p)) ->
  predict b w =
  after_load r p
    (mkWorld (fsys w) (loaded_history app_dir r ++ history w)%list).
Proof.
  intros Hv Hres.
  cbv [FunctionApp.predict predict_try bind ret lift emit query try_except
       logging_info path_exists IO.open_rb pickle_load
       FS.exists_ FS.open_rb];
    cbn [fsys history fst snd negb].
  rewrite Hv. cbn [fsys history fst snd negb].
  fold (artifact_path app_dir r).
  repeat (rewrite Hres; cbn [fsys history fst snd negb]).
  reflexivity.
Qed.













Lemma details_of_app a b da db :
  details_of a = Return da -> details_of b = Return db ->
  details_of (a ++ b)%list = Return (da ++ db)%list.
Proof.
  revert da. induction a as [| e a IH]; intros da Ha Hb; simpl in *.
  - now injection Ha as <-.
  - destruct (last_of_loc (loc e)); [ | discriminate].
    destruct (details_of a) as [da' | ]; [ | discriminate].
    injection Ha as <-. now rewrite (IH da' eq_refl Hb).
Qed.

Lemma details_of_bad_items field (l : list (nat * string)) :
  details_of
    (map (fun b => mkError [LocField field; LocIndex (fst b)] (snd b)) l) =
  Return (map (fun b => (LocIndex (fst b), snd b)) l).
Proof.
  induction l as [| b l IH]; simpl; [reflexivity | now rewrite IH].
Qed.

Lemma details_of_required {A} field (x : scalar_input A) :
  details_of (errors_of (required field x)) =
  Return (scalar_details field true x).
Proof. destruct x; reflexivity. Qed.

Lemma details_of_with_default {A} field (d : A) (x : scalar_input A) :
  details_of (errors_of (with_default field d x)) =
  Return (scalar_details field false x).
Proof. destruct x; reflexivity. Qed.

Lemma details_of_layer x :
  details_of (errors_of (ge_0 "layer" (required "layer" x))) =
  Return (layer_details x).
Proof.
  destruct x as [ | m | l]; try reflexivity.
  simpl. destruct (l <? 0)%Z; reflexivity.
Qed.

Lemma field_validator_activations field x :
  field_validator field validate_activations_length (required_list field x) =
  Return (checked_activations field x).
Proof.
  destruct x as [ | m | bad more | v]; try reflexivity.
  simpl. unfold validate_activations_length.
  destruct (length v =? 4096)%nat; reflexivity.
Qed.

Lemma details_of_activations field x :
  details_of (errors_of (checked_activations field x)) =
  Return (activation_details field x).
Proof.
  destruct x as [ | m | bad more | v]; try reflexivity.
  - exact (details_of_bad_items field (bad :: more)).
  - simpl. destruct (length v =? 4096)%nat; reflexivity.
Qed.






(** ** Repeated requests *)

Lemma serve_nth reqs :
  forall w i req r,
    nth_error reqs i = Some req ->
    nth_error (fst (serve reqs w)) i = Some r ->
    r = value (dispatch req) (fsys w).
Proof.
  induction reqs as [| q rest IH]; intros w i req r Hreq Hr.
  - destruct i; discriminate.
  - simpl in Hr.
    destruct (dispatch q w) as [r0 w1] eqn:Eq.
    destruct (serve rest w1) as [rs w2] eqn:Es.
    destruct i as [| i]; simpl in *.
    + injection Hreq as ->. injection Hr as <-.
      rewrite <- (value_eq (dispatch req) w (reads_only_dispatch req)).
      now rewrite Eq.
    + assert (Hfs : fsys w1 = fsys w).
      { destruct (reads_only_dispatch q w) as (H & _).
        now rewrite Eq in H. }
      rewrite <- Hfs. apply (IH w1 i); [exact Hreq | ].
      now rewrite Es.
Qed.

Lemma serve_preserves_fsys reqs :
  forall w, fsys (snd (serve reqs w)) = fsys w.
Proof.
  induction reqs as [| q rest IH]; intro w; simpl; [reflexivity | ].
  destruct (dispatch q w) as [r0 w1] eqn:Eq.
  specialize (IH w1).
  destruct (serve rest w1) as [rs w2]. simpl in *.
  rewrite IH.
  destruct (reads_only_dispatch q w) as (H & _). now rewrite Eq in H.
Qed.

(** C8.  In any run of the service from any state, two [POST /v1/predict]
    requests with the same body receive the same outcome, whatever was
    served before or between them: no request changes the repository, and
    a response does not depend on the history of earlier requests.  In
    particular two 200 responses carry the same [predicted_probability]. *)
Theorem predict_idempotent reqs w i j b r1 r2 :
  nth_error reqs i = Some (POST_v1_predict b) ->
  nth_error reqs j = Some (POST_v1_predict b) ->
  nth_error (fst (serve reqs w)) i = Some r1 ->
  nth_error (fst (serve reqs w)) j = Some r2 ->
  fsys (snd (serve reqs w)) = fsys w /\
  r1 = r2 /\
  forall x1 x2 c1 c2 m1 m2,
    r1 = Return (mkResponse (PredictJson x1) c1 m1) ->
    r2 = Return (mkResponse (PredictJson x2) c2 m2) ->
    PredictResponse.predicted_probability x1 =
    PredictResponse.predicted_probability x2.
Proof.
  intros Hi Hj H1 H2.
  pose proof (serve_nth reqs w i _ _ Hi H1) as E1.
  pose proof (serve_nth reqs w j _ _ Hj H2) as E2.
  split; [apply serve_preserves_fsys | ].
  split; [congruence | ].
  intros x1 x2 c1 c2 m1 m2 Hx1 Hx2.
  assert (E : r1 = r2) by congruence.
  rewrite Hx1, Hx2 in E. now injection E as ->.
Qed.

End AppProperties.

(** ** Strings, paths and path resolution *)

Lemma string_app_nil (s : string) : s ++ "" = s.
Proof. induction s as [| c s IH]; simpl; [reflexivity | now rewrite IH]. Qed.

Lemma string_app_snoc (s t : string) c : (s ++ String c "") ++ t = s ++ String c t.
Proof. induction s as [| x s IH]; simpl; [reflexivity | now rewrite IH]. Qed.

Lemma split_slash_aux_plain s :
  forall cur, has_slash s = false -> split_slash_aux cur s = [cur ++ s].
Proof.
  induction s as [| c s IH]; intros cur H; simpl in *.
  - now rewrite string_app_nil.
  - apply orb_false_iff in H as [Hc Hs]. rewrite Hc.
    rewrite (IH _ Hs). now rewrite string_app_snoc.
Qed.

Lemma joinpath_plain p s : plain_name s = true -> p </> s = (p ++ [s])%list.
Proof.
  unfold plain_name. intro H.
  apply andb_true_iff in H as [H Hdd].
  apply andb_true_iff in H as [H Hd].
  apply andb_true_iff in H as [Hs He].
  apply negb_true_iff in Hs, He, Hd.
  unfold joinpath, parse_parts, split_slash.
  rewrite (split_slash_aux_plain s "" Hs). simpl.
  rewrite He, Hd. simpl.
  destruct s as [| c s]; [discriminate | ].
  simpl in *. apply orb_false_iff in Hs as [Hc _]. now rewrite Hc.
Qed.

Lemma name_child (p : Path) c : name (p ++ [c])%list = c.
Proof. unfold name. apply last_last. Qed.

Lemma child_inj (p : Path) c c' : (p ++ [c] = p ++ [c'])%list -> c = c'.
Proof. intro H. apply app_inv_head in H. now injection H. Qed.

Lemma decimal_digits d :
  all_chars isdecimal_char (NilEmpty.string_of_uint d) = true /\
  has_slash (NilEmpty.string_of_uint d) = false.
Proof. induction d; simpl; try (destruct IHd; split; assumption); auto. Qed.


(** [str] of a natural number is a non-empty string of decimal digits that
    [int] reads back. *)
Lemma str_nonneg (n : Z) :
  (0 <= n)%Z ->
  exists d, d <> Nil /\ str n = NilEmpty.string_of_uint d /\ Z.of_uint d = n.
Proof.
  intro H. unfold str.
  destruct n as [| q | q]; [ | | lia].
  - exists (D0 Nil). repeat split; discriminate.
  - exists (Pos.to_uint q). simpl.
    assert (Hnz : Pos.to_uint q <> Nil).
    { intro E. pose proof (DecimalPos.Unsigned.of_to q) as Hq.
      rewrite E in Hq. discriminate. }
    split; [exact Hnz | split].
    + unfold NilZero.string_of_uint.
      destruct (Pos.to_uint q); [now elim Hnz | reflexivity ..].
    + exact (DecimalZ.of_to (Z.pos q)).
Qed.

Lemma string_of_uint_nonempty d :
  d <> Nil -> NilEmpty.string_of_uint d <> "".
Proof. destruct d; simpl; congruence. Qed.


Lemma int_str n : (0 <= n)%Z -> int (str n) = Return n.
Proof.
  intro H. destruct (str_nonneg n H) as (d & Hd & -> & <-).
  unfold int. now rewrite NilEmpty.usu.
Qed.

Lemma plain_str n : (0 <= n)%Z -> plain_name (str n) = true.
Proof.
  intro H. destruct (str_nonneg n H) as (d & Hd & -> & _).
  destruct (decimal_digits d) as [Hall Hs].
  pose proof (string_of_uint_nonempty d Hd) as Hne.
  unfold plain_name. rewrite Hs. simpl.
  destruct (NilEmpty.string_of_uint d) as [| c s] eqn:E; [now elim Hne | ].
  simpl in Hall. apply andb_true_iff in Hall as [Hc _].
  destruct c as [[] [] [] [] [] [] [] []]; try discriminate; reflexivity.
Qed.

Lemma joinpath_str p n : (0 <= n)%Z -> p </> str n = (p ++ [str n])%list.
Proof. intro H. apply joinpath_plain, plain_str, H. Qed.

Lemma lookup_In c es n : FS.lookup c es = Some n -> In c (map fst es).
Proof.
  induction es as [| [k x] es IH]; simpl; [discriminate | ].
  destruct (k =? c) eqn:E.
  - apply String.eqb_eq in E. auto.
  - auto.
Qed.

Lemma walk_app p :
  forall up cur q,
    FS.walk up cur (p ++ q)%list =
    match FS.walk up cur p with
    | Some (up', cur') => FS.walk up' cur' q
    | None => None
    end.
Proof.
  induction p as [| c p IH]; intros up cur q; simpl; [reflexivity | ].
  destruct cur as [content | es]; [reflexivity | ].
  destruct (c =? "..").
  - destruct up as [| [parent k] up']; apply IH.
  - destruct (FS.lookup c es); [apply IH | reflexivity].
Qed.

(** Resolving a child: the parent is a directory holding the entry. *)
Lemma resolve_child fs p c n :
  c <> ".." ->
  FS.resolve fs (p ++ [c])%list = Some n <->
  exists es, FS.resolve fs p = Some (FS.Dir es) /\ FS.lookup c es = Some n.
Proof.
  intro Hc. unfold FS.resolve. rewrite walk_app.
  apply String.eqb_neq in Hc.
  destruct (FS.walk [] fs p) as [[up cur] | ]; simpl.
  - destruct cur as [content | es]; simpl.
    + split; [discriminate | intros (es & H & _); discriminate].
    + rewrite Hc. destruct (FS.lookup c es) as [child | ] eqn:El; simpl.
      * split.
        -- intro H. injection H as <-. now exists es.
        -- intros (es' & H & H'). injection H as <-. congruence.
      * split; [discriminate | ].
        intros (es' & H & H'). injection H as <-. congruence.
  - split; [discriminate | intros (es & H & _); discriminate].
Qed.

Lemma children_In fs p es c :
  FS.resolve fs p = Some (FS.Dir es) ->
  In c (map fst es) -> In (p ++ [c])%list (children fs p).
Proof.
  intros H Hin. unfold children, FS.listdir. rewrite H.
  exact (in_map (fun n => (p ++ [n])%list) _ _ Hin).
Qed.

Lemma children_inv fs p d :
  In d (children fs p) -> exists c, d = (p ++ [c])%list.
Proof.
  unfold children. destruct (FS.listdir fs p); [ | contradiction].
  intro H. apply in_map_iff in H as (c & <- & _). now exists c.
Qed.

Lemma In_insert_path x p l : In x (insert_path p l) <-> x = p \/ In x l.
Proof.
  induction l as [| q l IH]; simpl.
  - intuition congruence.
  - destruct (path_ltb q p); simpl; rewrite ?IH; intuition congruence.
Qed.

Lemma In_sorted x l : In x (sorted l) <-> In x l.
Proof.
  induction l as [| p l IH]; simpl; [tauto | ].
  rewrite In_insert_path, IH. intuition congruence.
Qed.

Lemma Forall2_In_l {A B} (R : A -> B -> Prop) l1 l2 x :
  Forall2 R l1 l2 -> In x l1 -> exists y, In y l2 /\ R x y.
Proof.
  induction 1 as [| a b l1 l2 Hab H IH]; simpl; [contradiction | ].
  intros [-> | Hin]; [exists b; auto | ].
  destruct (IH Hin) as (y & Hy & Hr). exists y; auto.
Qed.

Lemma Forall2_In_r {A B} (R : A -> B -> Prop) l1 l2 y :
  Forall2 R l1 l2 -> In y l2 -> exists x, In x l1 /\ R x y.
Proof.
  induction 1 as [| a b l1 l2 Hab H IH]; simpl; [contradiction | ].
  intros [-> | Hin]; [exists a; auto | ].
  destruct (IH Hin) as (x & Hx & Hr). exists x; auto.
Qed.

(** ** The catalog *)

Lemma value_try_except {A} (body : M A) (handler : exn -> M A) fs :
  reads_only body -> (forall e, reads_only (handler e)) ->
  value (try_except body handler) fs =
  match value body fs with
  | Return a => Return a
  | Raise e => value (handler e) fs
  end.
Proof.
  intros Hm Hk. unfold value at 1 2. unfold try_except.
  destruct (Hm (mkWorld fs [])) as (Hfs & _ & _).
  destruct (body (mkWorld fs [])) as [[a | e] w1]; simpl in *.
  - reflexivity.
  - rewrite (value_eq (handler e) w1 (Hk e)). now rewrite Hfs.
Qed.

#[local] Hint Resolve reads_only_layers_loop reads_only_get_available_layers
  reads_only_probes_loop reads_only_discover_probes : reads.

Ltac solve_reads :=
  repeat first
    [ progress intros
    | solve [auto with reads]
    | apply reads_only_bind
    | apply reads_only_try_except
    | match goal with
      | |- reads_only (if ?b then _ else _) => destruct b
      | |- reads_only (match ?x with _ => _ end) => destruct x
      end ].

Ltac step_value H :=
  rewrite value_bind in H by solve_reads;
  rewrite ?value_path_is_dir, ?value_path_exists, ?value_lift in H;
  cbn [and_then] in H.

Lemma layers_loop_value fs dirs :
  forall acc ls,
    value (layers_loop dirs acc) fs = Return ls ->
    exists new,
      ls = (acc ++ new)%list /\
      Forall2 (fun d n => int (name d) = Return n)
        (filter (qualifies fs) dirs) new.
Proof.
  induction dirs as [| d rest IH]; intros acc ls H.
  - injection H as <-. exists []. rewrite app_nil_r. split; constructor.
  - cbn [layers_loop filter] in *. unfold qualifies at 1.
    step_value H.
    destruct (FS.is_dir fs d), (isdigit (name d)); cbn [andb] in *;
      try (now apply IH).
    step_value H.
    destruct (int (name d)) as [n | e] eqn:En; [ | discriminate].
    cbn [and_then] in H. step_value H.
    destruct (FS.exists_ fs (d </> "config.json")); cbn [andb];
      [ | now apply IH].
    step_value H.
    destruct (FS.exists_ fs (d </> "model.pickle")); [ | now apply IH].
    apply IH in H as (new & -> & F).
    exists (n :: new). rewrite <- app_assoc. split; [reflexivity | ].
    now constructor.
Qed.

Lemma get_layers_value fs d ls :
  value (_get_available_layers d) fs = Return ls ->
  Forall2 (fun c n => int (name c) = Return n)
    (filter (qualifies fs) (sorted (children fs d))) ls.
Proof.
  unfold _get_available_layers. intro H.
  rewrite value_bind in H by solve_reads.
  rewrite value_iterdir in H. unfold children.
  destruct (FS.listdir fs d) as [names | e]; [ | discriminate].
  cbn [and_then] in H.
  apply layers_loop_value in H as (new & -> & F). exact F.
Qed.

Lemma layers_nonempty fs d ls :
  value (_get_available_layers d) fs = Return ls ->
  match ls with [] => false | _ :: _ => true end
  = existsb (qualifies fs) (children fs d).
Proof.
  intro H. apply get_layers_value in H.
  destruct ls as [| n ls].
  - inversion H as [E | ]. symmetry.
    destruct (existsb (qualifies fs) (children fs d)) eqn:Ex; [ | reflexivity].
    apply existsb_exists in Ex as (x & Hx & Hq).
    assert (Hin : In x (filter (qualifies fs) (sorted (children fs d)))).
    { apply filter_In. split; [now apply In_sorted | exact Hq]. }
    rewrite <- E in Hin. contradiction.
  - inversion H as [ | x n' l1 l2 _ _ E]. subst. symmetry.
    apply existsb_exists. exists x.
    assert (Hin : In x (filter (qualifies fs) (sorted (children fs d)))).
    { rewrite <- E. now left. }
    apply filter_In in Hin as [Hin Hq]. split; [now apply In_sorted | exact Hq].
Qed.

Lemma probes_loop_value fs dirs :
  forall acc ps,
    value (probes_loop dirs acc) fs = Return ps ->
    exists new,
      ps = (acc ++ new)%list /\
      Forall2 (fun d info =>
                 exists ls,
                   value (_get_available_layers d) fs = Return ls /\
                   info = ProbeInfo.mk (name d) "linear_probe" ls)
        (filter (listed fs) dirs) new.
Proof.
  induction dirs as [| d rest IH]; intros acc ps H.
  - injection H as <-. exists []. rewrite app_nil_r. split; constructor.
  - cbn [probes_loop filter] in *. unfold listed at 1.
    step_value H.
    destruct (FS.is_dir fs d); cbn [negb andb] in *; [ | now apply IH].
    rewrite value_bind in H by solve_reads.
    destruct (value (_get_available_layers d) fs) as [ls | e] eqn:El;
      [ | discriminate].
    cbn [and_then] in H.
    rewrite <- (layers_nonempty fs d ls El).
    destruct ls as [| n ls]; [now apply IH | ].
    apply IH in H as (new & -> & F).
    exists (ProbeInfo.mk (name d) "linear_probe" (n :: ls) :: new).
    rewrite <- app_assoc. split; [reflexivity | ].
    constructor; [ | exact F]. now exists (n :: ls).
Qed.

Lemma discover_probes_value fs root ps :
  value (_discover_probes root) fs = Return ps ->
  if FS.exists_ fs root then
    Forall2 (fun d info =>
               exists ls,
                 value (_get_available_layers d) fs = Return ls /\
                 info = ProbeInfo.mk (name d) "linear_probe" ls)
      (filter (listed fs) (children fs root)) ps
  else ps = [].
Proof.
  unfold _discover_probes. intro H. step_value H.
  destruct (FS.exists_ fs root); cbn [negb] in H.
  - rewrite value_bind in H by solve_reads.
    rewrite value_iterdir in H. unfold children.
    destruct (FS.listdir fs root) as [names | e]; [ | discriminate].
    cbn [and_then] in H.
    apply probes_loop_value in H as (new & -> & F). exact F.
  - now injection H as <-.
Qed.

Section Catalog.

Variable app_dir : Path.
Variable validation_error_text : list ErrorDetails -> string.

Lemma list_probes_value fs :
  value (list_probes app_dir validation_error_text) fs =
  match value (_discover_probes (probes_root app_dir)) fs with
  | Return ps => Return (json_response (ProbesJson (ProbesResponse.mk ps)) 200)
  | Raise e =>
      Return (json_response
                (ErrorJson ("Internal server error: "
                            ++ exn_text validation_error_text e)) 500)
  end.
Proof.
  unfold list_probes.
  rewrite value_bind by solve_reads. cbn [and_then value logging_info emit fst].
  rewrite value_try_except by solve_reads.
  rewrite value_bind by solve_reads.
  fold (probes_root app_dir).
  destruct (value (_discover_probes (probes_root app_dir)) fs); reflexivity.
Qed.

Lemma list_probes_catalog w ps :
  fst (list_probes app_dir validation_error_text w) =
    Return (json_response (ProbesJson (ProbesResponse.mk ps)) 200) ->
  value (_discover_probes (probes_root app_dir)) (fsys w) = Return ps.
Proof.
  rewrite value_eq by apply reads_only_list_probes.
  rewrite list_probes_value.
  destruct (value (_discover_probes (probes_root app_dir)) (fsys w));
    [ | discriminate].
  intro H. now injection H as ->.
Qed.

Lemma validated_layer_nonneg b r :
  PredictRequest_model_validate_json b = Return r ->
  (0 <= PredictRequest.layer r)%Z.
Proof.
  unfold PredictRequest_model_validate_json.
  destruct b as [detail | | o]; try discriminate.
  destruct (field_validator "primary_activations" _ _) as [c1 | ];
    [ | discriminate].
  destruct (field_validator "text_activations" _ _) as [c2 | ];
    [ | discriminate].
  destruct (required "model" _), (with_default "probe_type" _ _),
    (ge_0 "layer" _) as [es | lay] eqn:El, c1, c2; try discriminate.
  intro H. injection H as <-. cbn [PredictRequest.layer].
  unfold ge_0 in El. destruct (required "layer" _); [discriminate | ].
  destruct (Z.ltb_spec z 0); [discriminate | ].
  injection El as <-. assumption.
Qed.


Lemma artifact_path_plain r :
  plain_name (PredictRequest.model r) = true ->
  (0 <= PredictRequest.layer r)%Z ->
  artifact_path app_dir r =
  (((probes_root app_dir ++ [PredictRequest.model r])
      ++ [str (PredictRequest.layer r)]) ++ ["model.pickle"])%list.
Proof.
  intros Hm Hl. unfold artifact_path. fold (probes_root app_dir).
  rewrite (joinpath_plain _ _ Hm), (joinpath_str _ _ Hl).
  now apply joinpath_plain.
Qed.

Lemma discover_absent fs root :
  FS.exists_ fs root = false -> value (_discover_probes root) fs = Return [].
Proof.
  intro H. unfold _discover_probes.
  rewrite value_bind by solve_reads.
  rewrite value_path_exists. cbn [and_then]. now rewrite H.
Qed.

Lemma children_absent fs root : FS.exists_ fs root = false -> children fs root = [].
Proof.
  unfold FS.exists_, children, FS.listdir.
  destruct (FS.resolve fs root); [discriminate | reflexivity].
Qed.

Lemma qualifies_inv fs c :
  qualifies fs c = true ->
  FS.is_dir fs c = true /\ isdigit (name c) = true /\
  FS.exists_ fs (c </> "config.json") = true /\
  FS.exists_ fs (c </> "model.pickle") = true.
Proof.
  unfold qualifies. intro H.
  apply andb_true_iff in H as [H H4].
  apply andb_true_iff in H as [H H3].
  apply andb_true_iff in H as [H1 H2]. auto.
Qed.

(** C7.  Without a repository root the catalog is empty and the status
    200.  In every catalog returned: the models are, in iteration order,
    exactly the model directories that have at least one qualifying layer
    directory (the others are left out); no entry has an empty [layers]
    list; and every listed layer is the number of a layer directory of that
    model that holds both [config.json] and [model.pickle]. *)
Theorem catalog_invariants w :
  (FS.exists_ (fsys w) (probes_root app_dir) = false ->
   fst (list_probes app_dir validation_error_text w) =
     Return (json_response (ProbesJson (ProbesResponse.mk [])) 200)) /\
  forall ps,
    fst (list_probes app_dir validation_error_text w) =
      Return (json_response (ProbesJson (ProbesResponse.mk ps)) 200) ->
    map ProbeInfo.model ps =
      map name (filter (listed (fsys w))
                  (children (fsys w) (probes_root app_dir))) /\
    forall info,
      In info ps ->
      ProbeInfo.layers info <> [] /\
      forall n,
        In n (ProbeInfo.layers info) ->
        exists layer_dir,
          In layer_dir
            (children (fsys w)
               (probes_root app_dir ++ [ProbeInfo.model info])%list) /\
          FS.is_dir (fsys w) layer_dir = true /\
          isdigit (name layer_dir) = true /\
          int (name layer_dir) = Return n /\
          FS.exists_ (fsys w) (layer_dir </> "config.json") = true /\
          FS.exists_ (fsys w) (layer_dir </> "model.pickle") = true.
Proof.
  split.
  - intro H. rewrite value_eq by apply reads_only_list_probes.
    rewrite list_probes_value. now rewrite (discover_absent _ _ H).
  - intros ps H. apply list_probes_catalog in H.
    apply discover_probes_value in H.
    destruct (FS.exists_ (fsys w) (probes_root app_dir)) eqn:Ex.
    2:{ subst ps. rewrite (children_absent _ _ Ex). split; [reflexivity | ].
        intros info []. }
    split.
    + induction H as [| d info ds infos (ls & _ & ->) _ IH]; [reflexivity | ].
      simpl. now rewrite IH.
    + intros info Hin.
      destruct (Forall2_In_r _ _ _ _ H Hin) as (d & Hd & ls & Hls & ->).
      apply filter_In in Hd as [Hd Hlisted].
      cbn [ProbeInfo.layers ProbeInfo.model].
      split.
      * apply andb_true_iff in Hlisted as [_ Hq].
        rewrite <- (layers_nonempty _ _ _ Hls) in Hq.
        destruct ls; [discriminate | congruence].
      * intros n Hn.
        destruct (Forall2_In_r _ _ _ _ (get_layers_value _ _ _ Hls) Hn)
          as (c & Hc & Hint).
        apply filter_In in Hc as [Hc Hq].
        apply (proj1 (In_sorted _ _)) in Hc.
        destruct (children_inv _ _ _ Hd) as (k & ->).
        rewrite name_child.
        apply qualifies_inv in Hq as (H1 & H2 & H3 & H4).
        exists c. repeat split; assumption.
Qed.

(** A qualifying layer directory of a listed model is in the catalog. *)
Lemma catalog_complete w ps m s n :
  fst (list_probes app_dir validation_error_text w) =
    Return (json_response (ProbesJson (ProbesResponse.mk ps)) 200) ->
  m <> ".." -> s <> ".." ->
  qualifies (fsys w) ((probes_root app_dir ++ [m]) ++ [s])%list = true ->
  int s = Return n ->
  exists info,
    In info ps /\ ProbeInfo.model info = m /\ In n (ProbeInfo.layers info).
Proof.
  intros H Hm Hs Hq Hn.
  apply list_probes_catalog in H. apply discover_probes_value in H.
  set (root := probes_root app_dir) in *.
  set (d := (root ++ [m])%list) in *.
  set (c := (d ++ [s])%list) in *.
  pose proof (qualifies_inv _ _ Hq) as (Hdir & _).
  (* the layer directory resolves, so its ancestors are directories *)
  unfold FS.is_dir in Hdir.
  destruct (FS.resolve (fsys w) c) as [nc | ] eqn:Ec; [ | discriminate].
  apply (resolve_child _ _ _ _ Hs) in Ec as (es_d & Ed & Hls).
  pose proof Ed as Ed'.
  apply (resolve_child _ _ _ _ Hm) in Ed' as (es_root & Eroot & Hlm).
  assert (Hc_in : In c (children (fsys w) d)).
  { eapply children_In; eauto using lookup_In. }
  assert (Hd_in : In d (children (fsys w) root)).
  { eapply children_In; eauto using lookup_In. }
  assert (Hex : FS.exists_ (fsys w) root = true).
  { unfold FS.exists_. now rewrite Eroot. }
  rewrite Hex in H.
  assert (Hlisted : listed (fsys w) d = true).
  { unfold listed, FS.is_dir. rewrite Ed. simpl.
    apply existsb_exists. now exists c. }
  assert (Hd_f : In d (filter (listed (fsys w)) (children (fsys w) root))).
  { apply filter_In. auto. }
  destruct (Forall2_In_l _ _ _ _ H Hd_f) as (info & Hinfo & ls & Hls' & ->).
  exists (ProbeInfo.mk (name d) "linear_probe" ls).
  split; [exact Hinfo | split].
  - unfold d. cbn [ProbeInfo.model]. apply name_child.
  - cbn [ProbeInfo.layers].
    assert (Hc_f : In c (filter (qualifies (fsys w))
                           (sorted (children (fsys w) d)))).
    { apply filter_In. split; [now apply In_sorted | exact Hq]. }
    destruct (Forall2_In_l _ _ _ _ (get_layers_value _ _ _ Hls') Hc_f)
      as (n' & Hn' & Hint).
    unfold c in Hint. rewrite name_child in Hint.
    congruence.
Qed.

Lemma plain_name_not_dotdot s : plain_name s = true -> s <> "..".
Proof.
  unfold plain_name. intros H ->. discriminate.
Qed.


End Catalog.

(** ** A model string that leaves the repository *)




Section Escape.

Variable app_dir : Path.


Lemma predict_unpickles w b r content :
  PredictRequest_model_validate_json b = Return r ->
  FS.resolve (fsys w) (artifact_path app_dir r) = Some (FS.File content) ->
  exists evs,
    history (snd (predict app_dir b w)) =
    (evs ++ Unpickle (artifact_path app_dir r)
         :: Open (artifact_path app_dir r)
         :: Stat (artifact_path app_dir r)
         :: validated_log r ++ history w)%list.
Proof.
  intros Hv Hres. destruct content as [p | e].
  - rewrite (predict_then_after_load app_dir w b r p Hv Hres).
    destruct (reads_only_after_load r p
                (mkWorld (fsys w) (loaded_history app_dir r ++ history w)%list))
      as (_ & (evs & ->) & _).
    exists (evs ++ [Log INFO "Successfully loaded probe for %s layer %s"
                      [ArgStr (PredictRequest.model r);
                       ArgInt (PredictRequest.layer r)]])%list.
    now rewrite <- app_assoc.
  - cbv [FunctionApp.predict predict_try bind ret lift emit query try_except
         logging_info path_exists IO.open_rb pickle_load
         FS.exists_ FS.open_rb];
      cbn [fsys history fst snd negb].
    rewrite Hv. cbn [fsys history fst snd negb].
    fold (artifact_path app_dir r).
    repeat (rewrite Hres; cbn [fsys history fst snd negb]).
    match goal with
    | |- context [predict_except e ?w1] =>
        destruct (reads_only_predict_except e w1) as (_ & (evs & ->) & _)
    end.
    exists evs. reflexivity.
Qed.


End Escape.

(** ** Concrete runs *)

(** C1, at a model directory with the layer directories ["2"] and ["10"].
    The entries are sorted as paths, hence as strings, and ["10"] sorts
    before ["2"]: whatever order the operating system lists them in, the
    catalog gives the layers as [10, 2], not [2, 10]. *)
Theorem layers_2_10_listed_as_10_2 vt :
  fst (list_probes Sample.app vt (Sample.world Sample.fs_2_10)) =
    Return (json_response
              (ProbesJson
                 (ProbesResponse.mk
                    [ProbeInfo.mk "llama3_8b" "linear_probe" [10%Z; 2%Z]]))
              200) /\
  fst (list_probes Sample.app vt (Sample.world Sample.fs_10_2)) =
    Return (json_response
              (ProbesJson
                 (ProbesResponse.mk
                    [ProbeInfo.mk "llama3_8b" "linear_probe" [10%Z; 2%Z]]))
              200).
Proof. split; vm_compute; reflexivity. Qed.







Lemma catalog_invariants_witness :
  fst (list_probes Sample.app Sample.no_text (Sample.world (FS.Dir []))) =
    Return (json_response (ProbesJson (ProbesResponse.mk [])) 200) /\
  map ProbeInfo.model Sample.catalog_mixed =
    ["llama3_8b"; "labels"; "binary"; "bare"] /\
  forall info,
    In info Sample.catalog_mixed -> ProbeInfo.layers info <> [].
Proof.
  destruct (catalog_invariants Sample.app Sample.no_text
              (Sample.world (FS.Dir []))) as (Habsent & _).
  destruct (catalog_invariants Sample.app Sample.no_text
              (Sample.world Sample.fs_mixed)) as (_ & Hcat).
  split; [apply Habsent; reflexivity | ].
  destruct (Hcat Sample.catalog_mixed) as (Hmodels & Hlayers).
  { vm_compute; reflexivity. }
  split.
  - reflexivity.
  - intros info Hin. exact (proj1 (Hlayers info Hin)).
Defined.

Lemma predict_idempotent_witness :
  let reqs := [POST_v1_predict (Sample.request "llama3_8b" 0);
               GET_v1_probes;
               POST_v1_predict (Sample.request "llama3_8b" 0)] in
  let run := serve Sample.app Sample.no_text reqs
               (Sample.world Sample.fs_mixed) in
  let answer :=
    Return (prediction_response (Sample.validated "llama3_8b" 0) 0.75%float) in
  nth_error (fst run) 0 = Some answer /\
  nth_error (fst run) 2 = Some answer /\
  fsys (snd run) = Sample.fs_mixed.
Proof.
  intros reqs run answer.
  assert (H0 : nth_error (fst run) 0 = Some answer) by (vm_compute; reflexivity).
  assert (H2 : nth_error (fst run) 2 = Some answer) by (vm_compute; reflexivity).
  split; [exact H0 | split; [exact H2 | ]].
  exact (proj1 (predict_idempotent Sample.app Sample.no_text reqs
                  (Sample.world Sample.fs_mixed) 0 2
                  (Sample.request "llama3_8b" 0) answer answer
                  eq_refl eq_refl H0 H2)).
Defined.



(* ================================================================== *)
(** * Further properties of the handlers *)
(* ================================================================== *)

#[local] Hint Resolve reads_only_predict_respond reads_only_predict_except
  : reads.

(** ** The outcome of [predict], the events left aside *)

Ltac by_class e :=
  destruct e as [? | ? | ? ?]; cbn [except_value and_then caught];
  cbv [predict_except bind ret lift emit logging_error];
  cbn [fst snd fsys history]; try reflexivity;
  match goal with
  | |- context [details_of ?es] => destruct (details_of es); reflexivity
  end.

Lemma predict_outcome app_dir b w :
  fst (predict app_dir b w) = caught (try_outcome app_dir (fsys w) b).
Proof.
  unfold try_outcome.
  cbv [FunctionApp.predict predict_try try_except bind ret lift emit query
       logging_info path_exists IO.open_rb pickle_load invoke predict_respond];
    cbn [fsys history fst snd].
  destruct (PredictRequest_model_validate_json b) as [r | e];
    cbn [and_then caught fst snd fsys history]; [ | by_class e].
  fold (artifact_path app_dir r). fold (probe_input r).
  unfold FS.exists_, FS.open_rb.
  destruct (FS.resolve (fsys w) (artifact_path app_dir r))
    as [[content | es] | ] eqn:Eres;
    cbn [negb and_then caught except_value fst snd fsys history];
    rewrite ?Eres;
    cbn [negb and_then caught except_value fst snd fsys history];
    try reflexivity.
  destruct content as [p | e]; cbn [and_then caught fst snd]; [ | by_class e].
  unfold probe_outcome, respond_outcome.
  destruct (attr_predict_proba p) as [f | ].
  - destruct (f (probe_input r)) as [a | e];
      cbn [and_then caught fst snd fsys history]; [ | by_class e].
    destruct (if (1 <? ncols a)%nat then getitem2 a 0 1 else getitem2 a 0 0)
      as [v | e]; cbn [and_then caught fst snd fsys history]; [ | by_class e].
    destruct (PredictResponse_init _ _ _ v) as [resp | e];
      cbn [and_then caught fst snd]; [reflexivity | by_class e].
  - destruct (attr_predict p) as [g | ]; [ | reflexivity].
    destruct (g (probe_input r)) as [y | e];
      cbn [and_then caught fst snd fsys history]; [ | by_class e].
    destruct (getitem1 y 0) as [v | e];
      cbn [and_then caught fst snd fsys history]; [ | by_class e].
    destruct (PredictResponse_init _ _ _ v) as [resp | e];
      cbn [and_then caught fst snd]; [reflexivity | by_class e].
Qed.

(** ** The details comprehension *)

Lemma details_of_located errors :
  Forall (fun e => loc e <> []) errors ->
  details_of errors = Return (map entry errors).
Proof.
  induction 1 as [| e es He _ IH]; [reflexivity | ].
  cbn [details_of map]. rewrite IH.
  unfold last_of_loc, entry.
  destruct (loc e) as [| x l] using rev_ind; [now elim He | ].
  rewrite rev_app_distr. cbn. now rewrite last_last.
Qed.

Lemma details_of_unlocated errors :
  Exists (fun e => loc e = []) errors ->
  details_of errors = IndexError "tuple index out of range".
Proof.
  induction 1 as [e es He | e es _ IH]; cbn [details_of].
  - now rewrite He.
  - rewrite IH. destruct (last_of_loc (loc e)) as [x | e'] eqn:E;
      [reflexivity | ].
    unfold last_of_loc in E. destruct (List.rev (loc e)); [ | discriminate].
    now injection E as <-.
Qed.






Section Answers.

Variable app_dir : Path.



(** X2.  When validation refuses the body with a list of errors, each
    with a location, [predict] answers 400 and its details list holds one
    pair per error, in the order of the errors: the last element of the
    location and the message.  When one error has an empty location, the
    handler itself raises [IndexError]. *)
Theorem predict_on_refused_body b errors w :
  PredictRequest_model_validate_json b = Raise (ValidationError errors) ->
  (Forall (fun e => loc e <> []) errors ->
   fst (predict app_dir b w) = Return (validation_failed (map entry errors))) /\
  (Exists (fun e => loc e = []) errors ->
   fst (predict app_dir b w) = IndexError "tuple index out of range").
Proof.
  intro Hv. rewrite predict_outcome. unfold try_outcome. rewrite Hv.
  cbn [and_then caught except_value]. split; intro H.
  - now rewrite (details_of_located _ H).
  - now rewrite (details_of_unlocated _ H).
Qed.


End Answers.

(** ** What the validator accepts *)

Lemma validated_fields o r :
  PredictRequest_model_validate_json (Json o) = Return r ->
  in_model o = Value (PredictRequest.model r) /\
  (in_probe_type o = Value (PredictRequest.probe_type r) \/
   in_probe_type o = Absent /\ PredictRequest.probe_type r = "linear_probe") /\
  in_layer o = Value (PredictRequest.layer r) /\
  (0 <= PredictRequest.layer r)%Z /\
  in_primary_activations o = ListValue (PredictRequest.primary_activations r) /\
  length (PredictRequest.primary_activations r) = 4096%nat /\
  in_text_activations o = ListValue (PredictRequest.text_activations r) /\
  length (PredictRequest.text_activations r) = 4096%nat.
Proof.
  unfold PredictRequest_model_validate_json.
  rewrite !field_validator_activations.
  destruct o as [im ipt il ip it], r as [m pt l p t].
  cbn [in_model in_probe_type in_layer in_primary_activations
       in_text_activations PredictRequest.model PredictRequest.probe_type
       PredictRequest.layer PredictRequest.primary_activations
       PredictRequest.text_activations].
  intro H.
  destruct im as [ | ? | m']; cbn in H; try discriminate.
  destruct ipt as [ | ? | pt']; cbn in H; try discriminate;
    (destruct il as [ | ? | l']; cbn in H; try discriminate;
     destruct (Z.ltb_spec l' 0); cbn in H; try discriminate;
     destruct ip as [ | ? | ? ? | p']; cbn in H; try discriminate;
     destruct (Nat.eqb_spec (length p') 4096); cbn in H; try discriminate;
     destruct it as [ | ? | ? ? | t']; cbn in H; try discriminate;
     destruct (Nat.eqb_spec (length t') 4096); cbn in H; try discriminate;
     injection H as <- <- <- <- <-; repeat split; auto).
Qed.

Lemma validated_lengths b r :
  PredictRequest_model_validate_json b = Return r ->
  length (PredictRequest.primary_activations r) = 4096%nat /\
  length (PredictRequest.text_activations r) = 4096%nat.
Proof.
  destruct b as [d | | o]; try discriminate.
  intro H. apply validated_fields in H. tauto.
Qed.

(** X3.  The request model accepts a JSON object, and yields the request
    [r], exactly when: [model] is a string; [probe_type] is a string, or is
    absent and then defaults to ["linear_probe"]; [layer] is an integer
    that is not negative; and both activation fields are lists of numbers
    of length 4096; [r] holds these values unchanged. *)
Theorem validate_accepts_iff o r :
  PredictRequest_model_validate_json (Json o) = Return r <->
  in_model o = Value (PredictRequest.model r) /\
  (in_probe_type o = Value (PredictRequest.probe_type r) \/
   in_probe_type o = Absent /\ PredictRequest.probe_type r = "linear_probe") /\
  in_layer o = Value (PredictRequest.layer r) /\
  (0 <= PredictRequest.layer r)%Z /\
  in_primary_activations o = ListValue (PredictRequest.primary_activations r) /\
  length (PredictRequest.primary_activations r) = 4096%nat /\
  in_text_activations o = ListValue (PredictRequest.text_activations r) /\
  length (PredictRequest.text_activations r) = 4096%nat.
Proof.
  split; [apply validated_fields | ].
  unfold PredictRequest_model_validate_json.
  rewrite !field_validator_activations.
  destruct o as [im ipt il ip it], r as [m pt l p t].
  cbn [in_model in_probe_type in_layer in_primary_activations
       in_text_activations PredictRequest.model PredictRequest.probe_type
       PredictRequest.layer PredictRequest.primary_activations
       PredictRequest.text_activations].
  intros (-> & Hpt & -> & Hl & -> & Hp & -> & Ht).
  apply Z.ltb_ge in Hl. apply Nat.eqb_eq in Hp, Ht.
  destruct Hpt as [-> | [-> ->]]; cbn; rewrite Hl; cbn; rewrite Hp, Ht;
    reflexivity.
Qed.

(** ** Every JSON object is validated or refused with a 400 *)

Lemma required_cases {A} field (x : scalar_input A) :
  (exists v, required field x = inr v /\ scalar_details field true x = []) \/
  (exists es, required field x = inl es /\ scalar_details field true x <> []).
Proof.
  destruct x; cbn; [right | right | left]; eexists; split;
    try reflexivity; discriminate.
Qed.

Lemma with_default_cases {A} field (d : A) (x : scalar_input A) :
  (exists v, with_default field d x = inr v /\
             scalar_details field false x = []) \/
  (exists es, with_default field d x = inl es /\
              scalar_details field false x <> []).
Proof.
  destruct x; cbn; [left | right | left]; eexists; split;
    try reflexivity; discriminate.
Qed.

Lemma layer_cases x :
  (exists v, ge_0 "layer" (required "layer" x) = inr v /\
             layer_details x = []) \/
  (exists es, ge_0 "layer" (required "layer" x) = inl es /\
              layer_details x <> []).
Proof.
  destruct x as [ | m | l]; cbn;
    try (right; eexists; split; [reflexivity | discriminate]).
  destruct (l <? 0)%Z; [right | left]; eexists; split;
    try reflexivity; discriminate.
Qed.

Lemma activation_cases field x :
  (exists v, checked_activations field x = inr v /\
             activation_details field x = []) \/
  (exists es, checked_activations field x = inl es /\
              activation_details field x <> []).
Proof.
  destruct x as [ | m | bad more | v]; cbn;
    try (right; eexists; split; [reflexivity | discriminate]).
  destruct (length v =? 4096)%nat; [left | right]; eexists; split;
    try reflexivity; discriminate.
Qed.

Lemma validate_object o :
  (exists r,
      PredictRequest_model_validate_json (Json o) = Return r /\
      details_for o = []) \/
  (exists errors,
      PredictRequest_model_validate_json (Json o)
        = Raise (ValidationError errors) /\
      details_of errors = Return (details_for o) /\
      details_for o <> []).
Proof.
  unfold PredictRequest_model_validate_json.
  rewrite !field_validator_activations.
  assert (Hd : details_of
                 (errors_of (required "model" (in_model o)) ++
                  errors_of (with_default "probe_type" "linear_probe"
                               (in_probe_type o)) ++
                  errors_of (ge_0 "layer" (required "layer" (in_layer o))) ++
                  errors_of (checked_activations "primary_activations"
                               (in_primary_activations o)) ++
                  errors_of (checked_activations "text_activations"
                               (in_text_activations o)))%list
               = Return (details_for o)).
  { unfold details_for.
    repeat apply details_of_app;
      first [ apply details_of_required | apply details_of_with_default
            | apply details_of_layer | apply details_of_activations ]. }
  unfold details_for in *.
  destruct (required_cases "model" (in_model o))
    as [(v1 & E1 & D1) | (e1 & E1 & D1)];
  destruct (with_default_cases "probe_type" "linear_probe" (in_probe_type o))
    as [(v2 & E2 & D2) | (e2 & E2 & D2)];
  destruct (layer_cases (in_layer o)) as [(v3 & E3 & D3) | (e3 & E3 & D3)];
  destruct (activation_cases "primary_activations" (in_primary_activations o))
    as [(v4 & E4 & D4) | (e4 & E4 & D4)];
  destruct (activation_cases "text_activations" (in_text_activations o))
    as [(v5 & E5 & D5) | (e5 & E5 & D5)];
  rewrite E1, E2, E3, E4, E5 in *;
  first
    [ left; eexists; split; [reflexivity | now rewrite D1, D2, D3, D4, D5]
    | right; eexists; split; [reflexivity | split; [exact Hd | ]];
      intro H;
      repeat (apply app_eq_nil in H; destruct H as [? H]);
      congruence ].
Qed.

Section Objects.

Variable app_dir : Path.

(** X4.  A JSON object either passes validation, and then has no detail
    to report, or is answered 400 with its details list, which is not
    empty: an object is never answered with another status for its fields
    and never makes the handler raise. *)
Theorem predict_object_validated_or_400 o w :
  (exists r,
      PredictRequest_model_validate_json (Json o) = Return r /\
      details_for o = []) \/
  (details_for o <> [] /\
   fst (predict app_dir (Json o) w)
     = Return (validation_failed (details_for o))).
Proof.
  destruct (validate_object o) as [(r & Hv & Hd) | (errors & Hv & Hd & Hne)].
  - left. now exists r.
  - right. split; [exact Hne | ].
    rewrite predict_outcome. unfold try_outcome. rewrite Hv.
    cbn [and_then caught except_value]. now rewrite Hd.
Qed.

End Objects.

(** ** Failures after the existence test *)

Section Failures.

Variable app_dir : Path.

(** X6.  An artifact that exists but does not load.  When the artifact
    path is a directory, [open] fails and [predict] answers 500.  When
    unpickling raises, [predict] answers 500 with the text of the
    exception, except for a [FileNotFoundError], which is answered 404
    ["Probe file not found"] although the artifact exists. *)
Theorem predict_unloadable_artifact b r w :
  PredictRequest_model_validate_json b = Return r ->
  (forall es,
      FS.resolve (fsys w) (artifact_path app_dir r) = Some (FS.Dir es) ->
      exists text, fst (predict app_dir b w) = Return (internal_error text)) /\
  (forall cls text,
      FS.resolve (fsys w) (artifact_path app_dir r)
        = Some (FS.File (Raise (OtherException cls text))) ->
      fst (predict app_dir b w) = Return (internal_error text)) /\
  (forall text,
      FS.resolve (fsys w) (artifact_path app_dir r)
        = Some (FS.File (Raise (FileNotFoundError text))) ->
      fst (predict app_dir b w) = Return probe_file_not_found).
Proof.
  intro Hv. rewrite predict_outcome. unfold try_outcome. rewrite Hv.
  cbn [and_then]. unfold FS.exists_, FS.open_rb.
  split; [ | split].
  - intros es ->. eexists. reflexivity.
  - intros cls text ->. reflexivity.
  - intros text ->. reflexivity.
Qed.

(** X7.  A probe that loads but fails.  When the capability that
    [predict] calls raises, the answer is 500 with the text of the
    exception; when [predict_proba] returns an array without rows, or
    [predict] an empty result, indexing fails and the answer is 500 too. *)
Theorem predict_failing_capability b r p w :
  PredictRequest_model_validate_json b = Return r ->
  FS.resolve (fsys w) (artifact_path app_dir r) = Some (FS.File (Return p)) ->
  (forall f cls text,
      attr_predict_proba p = Some f ->
      f (probe_input r) = Raise (OtherException cls text) ->
      fst (predict app_dir b w) = Return (internal_error text)) /\
  (forall g cls text,
      attr_predict_proba p = None -> attr_predict p = Some g ->
      g (probe_input r) = Raise (OtherException cls text) ->
      fst (predict app_dir b w) = Return (internal_error text)) /\
  (forall f a,
      attr_predict_proba p = Some f ->
      f (probe_input r) = Return a -> rows a = [] ->
      exists text, fst (predict app_dir b w) = Return (internal_error text)) /\
  (forall g,
      attr_predict_proba p = None -> attr_predict p = Some g ->
      g (probe_input r) = Return [] ->
      exists text, fst (predict app_dir b w) = Return (internal_error text)).
Proof.
  intros Hv Hres. rewrite predict_outcome. unfold try_outcome. rewrite Hv.
  cbn [and_then]. unfold FS.exists_, FS.open_rb. rewrite Hres.
  cbn [and_then]. unfold probe_outcome.
  split; [ | split; [ | split]].
  - intros f cls text -> ->. reflexivity.
  - intros g cls text -> -> ->. reflexivity.
  - intros f a -> -> Hrows. cbn [and_then]. unfold getitem2. rewrite Hrows.
    destruct (1 <? ncols a)%nat; eexists; reflexivity.
  - intros g -> -> ->. eexists. reflexivity.
Qed.

Lemma artifact_path_absolute r :
  is_absolute (PredictRequest.model r) = true ->
  artifact_path app_dir r =
  parse_parts (PredictRequest.model r)
    </> str (PredictRequest.layer r) </> "model.pickle".
Proof.
  intro H. unfold artifact_path.
  unfold joinpath at 3. now rewrite H.
Qed.

End Failures.

Lemma predict_depends_on_artifact_path app1 app2 b r w :
  PredictRequest_model_validate_json b = Return r ->
  artifact_path app1 r = artifact_path app2 r ->
  predict app1 b w = predict app2 b w.
Proof.
  intros Hv Hp.
  cbv [FunctionApp.predict predict_try try_except bind ret lift emit query
       logging_info path_exists IO.open_rb pickle_load];
    cbn [fsys history fst snd].
  rewrite Hv. cbn [fsys history fst snd].
  fold (artifact_path app1 r). fold (artifact_path app2 r).
  now rewrite Hp.
Qed.

(** X8.  An absolute model string replaces the repository root: the
    artifact path is the model string followed by the layer and
    [model.pickle], and [predict] behaves the same wherever the application
    is installed. *)
Theorem predict_absolute_model_ignores_root app1 app2 b r w :
  PredictRequest_model_validate_json b = Return r ->
  is_absolute (PredictRequest.model r) = true ->
  artifact_path app1 r =
    parse_parts (PredictRequest.model r)
      </> str (PredictRequest.layer r) </> "model.pickle" /\
  predict app1 b w = predict app2 b w.
Proof.
  intros Hv Habs. split; [now apply artifact_path_absolute | ].
  apply (predict_depends_on_artifact_path app1 app2 b r w Hv).
  now rewrite !artifact_path_absolute.
Qed.

(** ** The input of the probe *)

Lemma np_sub_length xs :
  forall ys, length xs = length ys -> length (np_sub xs ys) = length xs.
Proof.
  induction xs as [| x xs IH]; intros [| y ys] H; simpl in *;
    try discriminate; [reflexivity | ].
  now rewrite IH by congruence.
Qed.

Lemma np_sub_nth xs :
  forall ys i x y,
    nth_error xs i = Some x -> nth_error ys i = Some y ->
    nth_error (np_sub xs ys) i = Some (x - y)%float.
Proof.
  induction xs as [| x0 xs IH]; intros [| y0 ys] [| i] x y Hx Hy;
    simpl in *; try discriminate.
  - now injection Hx as <-; injection Hy as <-.
  - now apply IH.
Qed.

Lemma after_load_invokes_proba r p f w :
  attr_predict_proba p = Some f ->
  exists evs,
    history (snd (after_load r p w)) =
    (evs ++ Invoke PredictProba (probe_input r) :: history w)%list.
Proof.
  intro Hf. unfold after_load. rewrite Hf.
  change (try_except _ predict_except w) with
    (try_except
       (a <- lift (f (probe_input r)) ;;
        v <- lift (if (1 <? ncols a)%nat
                   then getitem2 a 0 1 else getitem2 a 0 0) ;;
        predict_respond r v)
       predict_except
       (mkWorld (fsys w) (Invoke PredictProba (probe_input r) :: history w))).
  match goal with
  | |- context [try_except ?m ?h ?w1] =>
      assert (H : reads_only (try_except m h)) by solve_reads;
      destruct (H w1) as (_ & (evs & ->) & _)
  end.
  now exists evs.
Qed.

Lemma after_load_invokes_predict r p g w :
  attr_predict_proba p = None -> attr_predict p = Some g ->
  exists evs,
    history (snd (after_load r p w)) =
    (evs ++ Invoke Predict (probe_input r) :: history w)%list.
Proof.
  intros Hf Hg. unfold after_load. rewrite Hf, Hg.
  change (try_except _ predict_except w) with
    (try_except
       (y <- lift (g (probe_input r)) ;;
        v <- lift (getitem1 y 0) ;;
        predict_respond r v)
       predict_except
       (mkWorld (fsys w) (Invoke Predict (probe_input r) :: history w))).
  match goal with
  | |- context [try_except ?m ?h ?w1] =>
      assert (H : reads_only (try_except m h)) by solve_reads;
      destruct (H w1) as (_ & (evs & ->) & _)
  end.
  now exists evs.
Qed.

Section Input.

Variable app_dir : Path.

(** X9.  For a validated request whose artifact holds a probe, the probe
    is called on an array of one row of 4096 numbers, each the primary
    activation minus the text activation at its index: through
    [predict_proba] when the probe has it, through [predict] when it has
    only that. *)
Theorem predict_calls_probe_on_delta b r p w :
  PredictRequest_model_validate_json b = Return r ->
  FS.resolve (fsys w) (artifact_path app_dir r) = Some (FS.File (Return p)) ->
  exists delta,
    length delta = 4096%nat /\
    (forall i x y,
        nth_error (PredictRequest.primary_activations r) i = Some x ->
        nth_error (PredictRequest.text_activations r) i = Some y ->
        nth_error delta i = Some (x - y)%float) /\
    (attr_predict_proba p <> None ->
     In (Invoke PredictProba [delta]) (history (snd (predict app_dir b w)))) /\
    (attr_predict_proba p = None -> attr_predict p <> None ->
     In (Invoke Predict [delta]) (history (snd (predict app_dir b w)))).
Proof.
  intros Hv Hres.
  destruct (validated_lengths b r Hv) as (Hp & Ht).
  exists (np_sub (PredictRequest.primary_activations r)
            (PredictRequest.text_activations r)).
  rewrite (predict_then_after_load app_dir w b r p Hv Hres).
  fold (probe_input r).
  split; [ | split; [ | split]].
  - rewrite np_sub_length; congruence.
  - intros i x y. apply np_sub_nth.
  - destruct (attr_predict_proba p) as [f | ] eqn:Hf; [ | congruence].
    intros _.
    destruct (after_load_invokes_proba r p f
                (mkWorld (fsys w) (loaded_history app_dir r ++ history w)%list)
                Hf) as (evs & ->).
    apply in_or_app. right. now left.
  - intros Hf Hg.
    destruct (attr_predict p) as [g | ] eqn:Eg; [ | congruence].
    destruct (after_load_invokes_predict r p g
                (mkWorld (fsys w) (loaded_history app_dir r ++ history w)%list)
                Hf Eg) as (evs & ->).
    apply in_or_app. right. now left.
Qed.

End Input.

(** ** The probe type is echoed and nothing else *)

Lemma retyped_except pt e : retyped pt (except_value e) = except_value e.
Proof.
  destruct e as [errors | text | cls text]; cbn [except_value];
    try reflexivity.
  destruct (details_of errors); reflexivity.
Qed.

Lemma retyped_respond m pt1 pt2 l primary text primary' text' v :
  caught (respond_outcome (PredictRequest.mk m pt2 l primary' text') v) =
  retyped pt2
    (caught (respond_outcome (PredictRequest.mk m pt1 l primary text) v)).
Proof.
  unfold respond_outcome, PredictResponse_init.
  cbn [PredictRequest.model PredictRequest.probe_type PredictRequest.layer].
  destruct (1 <? v)%float; [reflexivity | ].
  destruct (v <? 0)%float; reflexivity.
Qed.

(** X10.  The probe type of a request chooses nothing: two validated
    requests that differ in [probe_type] only have the same artifact path,
    and the second is answered as the first, except that a prediction
    echoes its own probe type. *)
Theorem predict_ignores_probe_type app_dir b1 b2 r1 r2 w :
  PredictRequest_model_validate_json b1 = Return r1 ->
  PredictRequest_model_validate_json b2 = Return r2 ->
  PredictRequest.model r1 = PredictRequest.model r2 ->
  PredictRequest.layer r1 = PredictRequest.layer r2 ->
  PredictRequest.primary_activations r1 = PredictRequest.primary_activations r2 ->
  PredictRequest.text_activations r1 = PredictRequest.text_activations r2 ->
  artifact_path app_dir r1 = artifact_path app_dir r2 /\
  fst (predict app_dir b2 w) =
    retyped (PredictRequest.probe_type r2) (fst (predict app_dir b1 w)).
Proof.
  intros Hv1 Hv2 Hm Hl Hp Ht.
  destruct r1 as [m pt1 l p t], r2 as [m' pt2 l' p' t'].
  cbn in Hm, Hl, Hp, Ht. subst m' l' p' t'.
  split; [reflexivity | ].
  rewrite !predict_outcome. unfold try_outcome. rewrite Hv1, Hv2.
  cbn [and_then PredictRequest.probe_type].
  change (artifact_path app_dir (PredictRequest.mk m pt2 l p t))
    with (artifact_path app_dir (PredictRequest.mk m pt1 l p t)).
  destruct (FS.exists_ (fsys w) _); [ | reflexivity].
  destruct (FS.open_rb (fsys w) _) as [[pr | e] | e]; cbn [and_then caught];
    try (symmetry; apply retyped_except).
  unfold probe_outcome.
  change (probe_input (PredictRequest.mk m pt2 l p t))
    with (probe_input (PredictRequest.mk m pt1 l p t)).
  destruct (attr_predict_proba pr) as [f | ].
  - destruct (f _) as [a | e]; cbn [and_then caught];
      try (symmetry; apply retyped_except).
    destruct (if (1 <? ncols a)%nat then getitem2 a 0 1 else getitem2 a 0 0)
      as [v | e]; cbn [and_then caught];
      try (symmetry; apply retyped_except).
    apply retyped_respond.
  - destruct (attr_predict pr) as [g | ]; [ | reflexivity].
    destruct (g _) as [y | e]; cbn [and_then caught];
      try (symmetry; apply retyped_except).
    destruct (getitem1 y 0) as [v | e]; cbn [and_then caught];
      try (symmetry; apply retyped_except).
    apply retyped_respond.
Qed.

(** ** A qualifying layer directory is listed and served *)

Section Served.

Variable app_dir : Path.
Variable validation_error_text : list ErrorDetails -> string.

Lemma predict_opens w b r :
  PredictRequest_model_validate_json b = Return r ->
  FS.exists_ (fsys w) (artifact_path app_dir r) = true ->
  exists evs,
    history (snd (predict app_dir b w)) =
    (evs ++ Open (artifact_path app_dir r)
         :: Stat (artifact_path app_dir r)
         :: validated_log r ++ history w)%list.
Proof.
  intros Hv Hex. unfold FS.exists_ in Hex.
  destruct (FS.resolve (fsys w) (artifact_path app_dir r))
    as [[content | es] | ] eqn:Hres; [ | | discriminate].
  - destruct (predict_unpickles app_dir w b r content Hv Hres) as (evs & ->).
    exists (evs ++ [Unpickle (artifact_path app_dir r)])%list.
    now rewrite <- app_assoc.
  - cbv [FunctionApp.predict predict_try bind ret lift emit query try_except
         logging_info path_exists IO.open_rb pickle_load
         FS.exists_ FS.open_rb];
      cbn [fsys history fst snd negb].
    rewrite Hv. cbn [fsys history fst snd negb].
    fold (artifact_path app_dir r).
    repeat (rewrite Hres; cbn [fsys history fst snd negb]).
    eexists [_]. reflexivity.
Qed.

(** X11.  The catalog and [predict] agree on what the catalog lists: for
    a validated request with a plain model name whose layer directory
    qualifies (a directory with [config.json] and [model.pickle]), every
    catalog that [list_probes] returns holds the layer under the model,
    the artifact exists, and [predict] opens it. *)
Theorem qualifying_layer_listed_and_served w b r :
  PredictRequest_model_validate_json b = Return r ->
  plain_name (PredictRequest.model r) = true ->
  qualifies (fsys w)
    ((probes_root app_dir ++ [PredictRequest.model r])
       ++ [str (PredictRequest.layer r)])%list = true ->
  (forall ps,
      fst (list_probes app_dir validation_error_text w) =
        Return (catalog_response ps) ->
      exists info,
        In info ps /\ ProbeInfo.model info = PredictRequest.model r /\
        In (PredictRequest.layer r) (ProbeInfo.layers info)) /\
  FS.exists_ (fsys w) (artifact_path app_dir r) = true /\
  In (Open (artifact_path app_dir r)) (history (snd (predict app_dir b w))).
Proof.
  intros Hv Hm Hq.
  pose proof (validated_layer_nonneg b r Hv) as Hl.
  assert (Hex : FS.exists_ (fsys w) (artifact_path app_dir r) = true).
  { rewrite (artifact_path_plain app_dir r Hm Hl).
    apply qualifies_inv in Hq as (_ & _ & _ & H).
    rewrite joinpath_plain in H by reflexivity. exact H. }
  split; [ | split; [exact Hex | ]].
  - intros ps Hcat.
    exact (catalog_complete app_dir validation_error_text w ps _ _ _ Hcat
             (plain_name_not_dotdot _ Hm)
             (plain_name_not_dotdot _ (plain_str _ Hl)) Hq (int_str _ Hl)).
  - destruct (predict_opens w b r Hv Hex) as (evs & ->).
    apply in_or_app. right. now left.
Qed.

End Served.

(** ** The order of paths *)

Lemma string_compare_refl s : String.compare s s = Eq.
Proof.
  pose proof (String.compare_antisym s s) as H.
  destruct (String.compare s s); try reflexivity; discriminate.
Qed.

Lemma string_compare_lt_trans x y z :
  String.compare x y = Lt -> String.compare y z = Lt -> String.compare x z = Lt.
Proof.
  intros H1 H2. apply OrderedTypeEx.String_as_OT.cmp_lt.
  apply OrderedTypeEx.String_as_OT.lt_trans with y;
    now apply OrderedTypeEx.String_as_OT.cmp_lt.
Qed.

Lemma string_compare_gt_trans x y z :
  String.compare x y = Gt -> String.compare y z = Gt -> String.compare x z = Gt.
Proof.
  intros H1 H2.
  rewrite String.compare_antisym in H1, H2 |- *.
  destruct (String.compare y x) eqn:E1; try discriminate.
  destruct (String.compare z y) eqn:E2; try discriminate.
  now rewrite (string_compare_lt_trans z y x E2 E1).
Qed.

Lemma path_ltb_asym a :
  forall b, path_ltb a b = true -> path_ltb b a = false.
Proof.
  induction a as [| x a IH]; intros [| y b] H; simpl in *;
    try reflexivity; try discriminate.
  rewrite String.compare_antisym.
  destruct (String.compare x y); simpl; try discriminate; auto.
Qed.

Lemma path_le_trans a :
  forall b c, path_le a b -> path_le b c -> path_le a c.
Proof.
  unfold path_le.
  induction a as [| x a IH]; intros [| y b] [| z c] H1 H2; simpl in *;
    try reflexivity; try discriminate.
  destruct (String.compare y x) eqn:E1; try discriminate;
    destruct (String.compare z y) eqn:E2; try discriminate.
  - apply String.compare_eq_iff in E1, E2. subst.
    rewrite string_compare_refl. eauto.
  - apply String.compare_eq_iff in E1. subst. now rewrite E2.
  - apply String.compare_eq_iff in E2. subst. now rewrite E1.
  - now rewrite (string_compare_gt_trans z y x E2 E1).
Qed.

Lemma insert_path_sorted p l :
  StronglySorted path_le l -> StronglySorted path_le (insert_path p l).
Proof.
  induction 1 as [| q l Hs IH Hq]; simpl.
  - repeat constructor.
  - destruct (path_ltb q p) eqn:E.
    + constructor; [exact IH | ].
      apply Forall_forall. intros x Hx.
      apply In_insert_path in Hx as [-> | Hx].
      * now apply path_ltb_asym.
      * rewrite Forall_forall in Hq. auto.
    + constructor; [now constructor | ].
      constructor; [exact E | ].
      apply Forall_forall. intros x Hx.
      rewrite Forall_forall in Hq.
      apply path_le_trans with q; [exact E | auto].
Qed.

Lemma sorted_is_sorted l : StronglySorted path_le (sorted l).
Proof.
  induction l as [| p l IH]; simpl; [constructor | ].
  now apply insert_path_sorted.
Qed.

Lemma insert_path_perm p l : Permutation (insert_path p l) (p :: l).
Proof.
  induction l as [| q l IH]; simpl; [reflexivity | ].
  destruct (path_ltb q p); [ | reflexivity].
  rewrite IH. apply perm_swap.
Qed.

Lemma sorted_perm l : Permutation (sorted l) l.
Proof.
  induction l as [| p l IH]; simpl; [reflexivity | ].
  rewrite insert_path_perm. now constructor.
Qed.

Lemma filter_perm {A} (f : A -> bool) l l' :
  Permutation l l' -> Permutation (filter f l) (filter f l').
Proof.
  induction 1 as [| x l l' _ IH | x y l | l l' l'' _ IH1 _ IH2]; simpl.
  - reflexivity.
  - destruct (f x); [now constructor | exact IH].
  - destruct (f x), (f y); try reflexivity. apply perm_swap.
  - now transitivity (filter f l').
Qed.

Lemma filter_sorted {A} (R : A -> A -> Prop) (f : A -> bool) l :
  StronglySorted R l -> StronglySorted R (filter f l).
Proof.
  induction 1 as [| x l Hs IH Hx]; simpl; [constructor | ].
  destruct (f x); [ | exact IH].
  constructor; [exact IH | ].
  rewrite Forall_forall in *. intros y Hy.
  apply filter_In in Hy as [Hy _]. auto.
Qed.

(** X12.  The layers that [_get_available_layers] returns are the
    numbers of the qualifying layer directories of the model, one per
    directory, taken in ascending order of the directory paths (an order on
    names as strings, not on the numbers). *)
Theorem layers_in_path_order model_dir w ls :
  fst (_get_available_layers model_dir w) = Return ls ->
  exists dirs,
    Permutation dirs
      (filter (qualifies (fsys w)) (children (fsys w) model_dir)) /\
    StronglySorted path_le dirs /\
    Forall2 (fun c n => int (name c) = Return n) dirs ls.
Proof.
  rewrite value_eq by apply reads_only_get_available_layers.
  intro H. apply get_layers_value in H.
  exists (filter (qualifies (fsys w)) (sorted (children (fsys w) model_dir))).
  split; [ | split; [ | exact H]].
  - apply filter_perm, sorted_perm.
  - apply filter_sorted, sorted_is_sorted.
Qed.

(** ** The catalog endpoint *)

Lemma layers_loop_digits fs dirs :
  forall acc ls,
    value (layers_loop dirs acc) fs = Return ls ->
    forall d,
      In d dirs -> FS.is_dir fs d = true -> isdigit (name d) = true ->
      exists n, int (name d) = Return n.
Proof.
  induction dirs as [| x rest IH]; intros acc ls H d Hin Hd Hg;
    [contradiction | ].
  cbn [layers_loop] in H. step_value H.
  destruct Hin as [-> | Hin].
  - rewrite Hd, Hg in H. cbn [andb] in H. step_value H.
    destruct (int (name d)) as [n | e]; [now exists n | discriminate].
  - destruct (FS.is_dir fs x && isdigit (name x)); [ | eauto].
    step_value H.
    destruct (int (name x)) as [n | e]; [ | discriminate].
    cbn [and_then] in H. step_value H.
    destruct (FS.exists_ fs (x </> "config.json")); [ | eauto].
    step_value H.
    destruct (FS.exists_ fs (x </> "model.pickle")); eauto.
Qed.

Lemma probes_loop_dirs fs dirs :
  forall acc ps,
    value (probes_loop dirs acc) fs = Return ps ->
    forall d,
      In d dirs -> FS.is_dir fs d = true ->
      exists ls, value (_get_available_layers d) fs = Return ls.
Proof.
  induction dirs as [| x rest IH]; intros acc ps H d Hin Hd;
    [contradiction | ].
  cbn [probes_loop] in H. step_value H.
  destruct Hin as [-> | Hin].
  - rewrite Hd in H. cbn [negb] in H.
    rewrite value_bind in H by solve_reads.
    destruct (value (_get_available_layers d) fs) as [ls | e];
      [now exists ls | discriminate].
  - destruct (FS.is_dir fs x); cbn [negb] in H; [ | eauto].
    rewrite value_bind in H by solve_reads.
    destruct (value (_get_available_layers x) fs) as [ls | e];
      [ | discriminate].
    cbn [and_then] in H. destruct ls; eauto.
Qed.

Lemma int_nonneg s n : int s = Return n -> (0 <= n)%Z.
Proof.
  unfold int. destruct (NilEmpty.uint_of_string s); [ | discriminate].
  intro H. injection H as <-. unfold Z.of_uint. apply N2Z.is_nonneg.
Qed.

Section Endpoint.

Variable app_dir : Path.
Variable validation_error_text : list ErrorDetails -> string.

(** X13.  [list_probes] never raises: it answers 200 with the catalog
    that [_discover_probes] returns, or, when discovery raises, 500 with
    the text of the exception. *)
Theorem list_probes_answers w :
  (exists ps,
      fst (list_probes app_dir validation_error_text w)
        = Return (catalog_response ps) /\
      fst (_discover_probes (probes_root app_dir) w) = Return ps) \/
  (exists e,
      fst (list_probes app_dir validation_error_text w)
        = Return (internal_error (exn_text validation_error_text e)) /\
      fst (_discover_probes (probes_root app_dir) w) = Raise e).
Proof.
  rewrite !value_eq
    by first [apply reads_only_list_probes | apply reads_only_discover_probes].
  rewrite list_probes_value.
  destruct (value (_discover_probes (probes_root app_dir)) (fsys w))
    as [ps | e]; [left; now exists ps | right; now exists e].
Qed.

(** X14.  When the repository root exists but is a regular file, listing
    it fails and [list_probes] answers 500, not the empty catalog. *)
Theorem list_probes_root_not_a_directory w content :
  FS.resolve (fsys w) (probes_root app_dir) = Some (FS.File content) ->
  exists text,
    fst (list_probes app_dir validation_error_text w)
      = Return (internal_error text).
Proof.
  intro H. rewrite value_eq by apply reads_only_list_probes.
  rewrite list_probes_value.
  unfold _discover_probes.
  rewrite value_bind by solve_reads. rewrite value_path_exists.
  unfold FS.exists_. rewrite H. cbn [and_then negb].
  rewrite value_bind by solve_reads. rewrite value_iterdir.
  unfold FS.listdir. rewrite H. cbn [and_then].
  eexists. reflexivity.
Qed.

(** X15.  One layer directory whose name passes [str.isdigit] but that
    [int] refuses (a superscript digit, say) takes the whole catalog down:
    wherever it is in the repository, [list_probes] answers 500. *)
Theorem list_probes_undecodable_layer_name w model_dir layer_dir e :
  In model_dir (children (fsys w) (probes_root app_dir)) ->
  FS.is_dir (fsys w) model_dir = true ->
  In layer_dir (children (fsys w) model_dir) ->
  FS.is_dir (fsys w) layer_dir = true ->
  isdigit (name layer_dir) = true ->
  int (name layer_dir) = Raise e ->
  exists text,
    fst (list_probes app_dir validation_error_text w)
      = Return (internal_error text).
Proof.
  intros Hm Hmd Hl Hld Hg Hint.
  rewrite value_eq by apply reads_only_list_probes.
  rewrite list_probes_value.
  destruct (value (_discover_probes (probes_root app_dir)) (fsys w))
    as [ps | e'] eqn:H; [ | eexists; reflexivity].
  exfalso.
  unfold _discover_probes in H. step_value H.
  destruct (FS.exists_ (fsys w) (probes_root app_dir)) eqn:Ex;
    cbn [negb] in H.
  2:{ rewrite (children_absent _ _ Ex) in Hm. contradiction. }
  rewrite value_bind in H by solve_reads. rewrite value_iterdir in H.
  unfold children in Hm.
  destruct (FS.listdir (fsys w) (probes_root app_dir)) as [names | e'];
    [ | contradiction].
  cbn [and_then] in H.
  destruct (probes_loop_dirs _ _ _ _ H model_dir Hm Hmd) as (ls & Hls).
  unfold _get_available_layers in Hls.
  rewrite value_bind in Hls by solve_reads. rewrite value_iterdir in Hls.
  unfold children in Hl.
  destruct (FS.listdir (fsys w) model_dir) as [names' | e'];
    [ | contradiction].
  cbn [and_then] in Hls.
  destruct (layers_loop_digits _ _ _ _ Hls layer_dir) as (n & Hn); auto.
  - now apply In_sorted.
  - congruence.
Qed.

(** X16.  Every entry of a returned catalog has the probe type
    ["linear_probe"], layers that are not negative, and the name of a
    directory of the repository root as its model, with as many layers as
    that directory has qualifying layer directories. *)
Theorem catalog_entries w ps :
  fst (list_probes app_dir validation_error_text w)
    = Return (catalog_response ps) ->
  forall info,
    In info ps ->
    ProbeInfo.probe_type info = "linear_probe" /\
    Forall (fun n => (0 <= n)%Z) (ProbeInfo.layers info) /\
    exists model_dir,
      In model_dir (children (fsys w) (probes_root app_dir)) /\
      FS.is_dir (fsys w) model_dir = true /\
      ProbeInfo.model info = name model_dir /\
      length (ProbeInfo.layers info) =
        length (filter (qualifies (fsys w)) (children (fsys w) model_dir)).
Proof.
  intros H info Hin.
  apply list_probes_catalog in H. apply discover_probes_value in H.
  destruct (FS.exists_ (fsys w) (probes_root app_dir));
    [ | subst ps; contradiction].
  destruct (Forall2_In_r _ _ _ _ H Hin) as (d & Hd & ls & Hls & ->).
  apply filter_In in Hd as [Hd Hlisted].
  apply andb_true_iff in Hlisted as [Hdir _].
  pose proof (get_layers_value _ _ _ Hls) as F.
  cbn [ProbeInfo.probe_type ProbeInfo.layers ProbeInfo.model].
  split; [reflexivity | split].
  - apply Forall_forall. intros n Hn.
    destruct (Forall2_In_r _ _ _ _ F Hn) as (c & _ & Hc).
    exact (int_nonneg _ _ Hc).
  - exists d. repeat split; auto.
    rewrite <- (Forall2_length F).
    apply Permutation_length, filter_perm, sorted_perm.
Qed.

End Endpoint.

(** ** The events of the handlers *)

Lemma emits_ret {A} P (a : A) : emits P (ret a).
Proof. intro w. now exists []. Qed.

Lemma emits_lift {A} P (o : outcome A) : emits P (lift o).
Proof. intro w. now exists []. Qed.

Lemma emits_query {A} P (f : FS.node -> outcome A) : emits P (query f).
Proof. intro w. now exists []. Qed.

Lemma emits_emit (P : event -> Prop) e : P e -> emits P (emit e).
Proof. intros H w. exists [e]. split; [reflexivity | now constructor]. Qed.

Lemma emits_bind {A B} P (m : M A) (k : A -> M B) :
  emits P m -> (forall a, emits P (k a)) -> emits P (bind m k).
Proof.
  intros Hm Hk w. unfold bind.
  destruct (Hm w) as (evs & Hev & HP).
  destruct (m w) as [[a | e] w1]; simpl in *.
  - destruct (Hk a w1) as (evs' & Hev' & HP').
    exists (evs' ++ evs)%list. split.
    + rewrite Hev', Hev. now rewrite app_assoc.
    + apply Forall_app. auto.
  - now exists evs.
Qed.

Lemma emits_try_except {A} P (body : M A) (handler : exn -> M A) :
  emits P body -> (forall e, emits P (handler e)) ->
  emits P (try_except body handler).
Proof.
  intros Hm Hk w. unfold try_except.
  destruct (Hm w) as (evs & Hev & HP).
  destruct (body w) as [[a | e] w1]; simpl in *.
  - now exists evs.
  - destruct (Hk e w1) as (evs' & Hev' & HP').
    exists (evs' ++ evs)%list. split.
    + rewrite Hev', Hev. now rewrite app_assoc.
    + apply Forall_app. auto.
Qed.

Lemma emits_bind_return {A B} P (a : A) (k : A -> M B) :
  emits P (k a) -> emits P (bind (lift (Return a)) k).
Proof. intros H w. exact (H w). Qed.

Lemma emits_bind_raise {A B} P e (k : A -> M B) :
  emits P (bind (lift (Raise e)) k).
Proof. intro w. now exists []. Qed.

Lemma open_rb_run p w :
  IO.open_rb p w =
  (and_then (FS.open_rb (fsys w) p) (fun content => Return (p, content)),
   mkWorld (fsys w) (Open p :: history w)).
Proof.
  unfold IO.open_rb, bind, emit, query, ret. cbn [fsys history fst snd].
  destruct (FS.open_rb (fsys w) p); reflexivity.
Qed.

(** After [open], the file at hand is the one that was asked for. *)
Lemma emits_open_rb_bind {B} (P : event -> Prop) p
  (k : Path * outcome probe -> M B) :
  P (Open p) -> (forall content, emits P (k (p, content))) ->
  emits P (bind (IO.open_rb p) k).
Proof.
  intros HP Hk w.
  unfold bind. rewrite open_rb_run.
  destruct (FS.open_rb (fsys w) p) as [content | e]; cbn [and_then].
  - destruct (Hk content (mkWorld (fsys w) (Open p :: history w)))
      as (evs & Hev & HF).
    exists (evs ++ [Open p])%list. split.
    + rewrite Hev. cbn [history]. now rewrite <- app_assoc.
    + apply Forall_app. split; [exact HF | now constructor].
  - exists [Open p]. split; [reflexivity | now constructor].
Qed.

Ltac solve_emits :=
  repeat first
    [ progress intros
    | apply emits_ret | apply emits_lift | apply emits_query
    | apply emits_emit; exact I
    | apply emits_try_except
    | apply emits_bind
    | match goal with
      | |- emits _ (if ?b then _ else _) => destruct b
      | |- emits _ (match ?x with _ => _ end) => destruct x
      end ].

Lemma layers_loop_lookups dirs :
  forall acc, emits is_lookup (layers_loop dirs acc).
Proof.
  induction dirs as [| d rest IH]; intro acc; cbn [layers_loop].
  - apply emits_ret.
  - unfold path_is_dir, path_exists.
    apply emits_bind; [solve_emits | intro isd].
    destruct (isd && isdigit (name d)); [ | apply IH].
    apply emits_bind; [solve_emits | intro n].
    apply emits_bind; [solve_emits | intros [|]]; [ | apply IH].
    apply emits_bind; [solve_emits | intros [|]]; apply IH.
Qed.

Lemma get_available_layers_lookups d :
  emits is_lookup (_get_available_layers d).
Proof.
  unfold _get_available_layers, iterdir.
  apply emits_bind; [solve_emits | intro].
  apply layers_loop_lookups.
Qed.

Lemma probes_loop_lookups dirs :
  forall acc, emits is_lookup (probes_loop dirs acc).
Proof.
  induction dirs as [| d rest IH]; intro acc; cbn [probes_loop].
  - apply emits_ret.
  - unfold path_is_dir.
    apply emits_bind; [solve_emits | intros [|]]; cbn [negb]; [ | apply IH].
    apply emits_bind; [apply get_available_layers_lookups | ].
    intros [| n ls]; apply IH.
Qed.

Section Events.

Variable app_dir : Path.
Variable validation_error_text : list ErrorDetails -> string.

(** X17.  [list_probes] only looks: whatever the state, the events it
    adds are log records, existence and directory tests and directory
    listings; it opens no file, unpickles nothing, calls no probe, and
    leaves the file system as it was. *)
Theorem list_probes_only_looks w :
  exists evs,
    history (snd (list_probes app_dir validation_error_text w))
      = (evs ++ history w)%list /\
    Forall is_lookup evs /\
    fsys (snd (list_probes app_dir validation_error_text w)) = fsys w.
Proof.
  assert (H : emits is_lookup (list_probes app_dir validation_error_text)).
  { unfold list_probes, logging_info, logging_error.
    apply emits_bind; [solve_emits | intro].
    apply emits_try_except; [ | solve_emits].
    apply emits_bind; [ | solve_emits].
    unfold _discover_probes, path_exists, iterdir.
    apply emits_bind; [solve_emits | intros [|]]; cbn [negb];
      [ | apply emits_ret].
    apply emits_bind; [solve_emits | intro].
    apply probes_loop_lookups. }
  destruct (H w) as (evs & Hev & HP).
  exists evs. repeat split; auto.
  now destruct (reads_only_list_probes app_dir validation_error_text w).
Qed.

(** X18.  [predict] touches one path: whatever the body and the state,
    every existence test, [open] and unpickling it performs is on the
    artifact path of the validated request (so none happens for a refused
    body), and it lists no directory: it never consults the catalog. *)
Theorem predict_touches_only_artifact b w :
  exists evs,
    history (snd (predict app_dir b w)) = (evs ++ history w)%list /\
    Forall (touches_only_artifact app_dir b) evs.
Proof.
  assert (H : emits (touches_only_artifact app_dir b) (predict app_dir b)).
  { unfold predict, predict_try, logging_info.
    apply emits_bind; [solve_emits | intros _].
    apply emits_try_except.
    2:{ intro e. unfold predict_except, logging_error. solve_emits. }
    destruct (PredictRequest_model_validate_json b) as [r | e] eqn:Hv;
      [apply emits_bind_return | apply emits_bind_raise].
    unfold predict_respond, logging_info, path_exists, pickle_load, invoke.
    assert (Hp : forall p, p = artifact_path app_dir r ->
                 exists r', PredictRequest_model_validate_json b = Return r' /\
                            p = artifact_path app_dir r')
      by (intros p ->; now exists r).
    fold (artifact_path app_dir r).
    repeat first
      [ progress intros
      | apply emits_ret | apply emits_lift | apply emits_query
      | apply emits_emit; cbn; solve [exact I | exact (Hp _ eq_refl)]
      | apply emits_open_rb_bind; [exact (Hp _ eq_refl) | ]
      | apply emits_bind
      | match goal with
        | |- emits _ (if ?c then _ else _) => destruct c
        | |- emits _ (match ?x with _ => _ end) => destruct x
        end ]. }
  exact (H w).
Qed.

End Events.

(** ** Runs of the further properties *)

Lemma predict_on_refused_body_witness :
  fst (predict Sample.app Edge.without_model (Sample.world Sample.fs_mixed)) =
    Return (validation_failed [(LocField "model", "Field required")]).
Proof.
  assert (Hv : PredictRequest_model_validate_json Edge.without_model =
               Raise (ValidationError
                        [mkError [LocField "model"] "Field required"]))
    by reflexivity.
  apply (proj1 (predict_on_refused_body Sample.app Edge.without_model _
                  (Sample.world Sample.fs_mixed) Hv)).
  constructor; [discriminate | constructor].
Defined.


Lemma predict_unloadable_artifact_witness :
  (exists text,
      fst (predict Sample.app (Sample.request "llama3_8b" 0)
             (Sample.world Edge.fs_broken)) = Return (internal_error text)) /\
  fst (predict Sample.app (Sample.request "llama3_8b" 1)
         (Sample.world Edge.fs_broken)) =
    Return (internal_error "pickle data was truncated") /\
  fst (predict Sample.app (Sample.request "llama3_8b" 2)
         (Sample.world Edge.fs_broken)) = Return probe_file_not_found.
Proof.
  split; [ | split].
  - assert (Hv : PredictRequest_model_validate_json
                   (Sample.request "llama3_8b" 0) =
                 Return (Sample.validated "llama3_8b" 0)) by reflexivity.
    apply (proj1 (predict_unloadable_artifact Sample.app _ _
                    (Sample.world Edge.fs_broken) Hv) []).
    reflexivity.
  - assert (Hv : PredictRequest_model_validate_json
                   (Sample.request "llama3_8b" 1) =
                 Return (Sample.validated "llama3_8b" 1)) by reflexivity.
    apply (proj1 (proj2 (predict_unloadable_artifact Sample.app _ _
                           (Sample.world Edge.fs_broken) Hv))
             "UnpicklingError").
    reflexivity.
  - assert (Hv : PredictRequest_model_validate_json
                   (Sample.request "llama3_8b" 2) =
                 Return (Sample.validated "llama3_8b" 2)) by reflexivity.
    apply (proj2 (proj2 (predict_unloadable_artifact Sample.app _ _
                           (Sample.world Edge.fs_broken) Hv))
             "[Errno 2] No such file or directory: 'weights.npy'").
    reflexivity.
Defined.

Lemma predict_failing_capability_witness :
  fst (predict Sample.app (Sample.request "llama3_8b" 3)
         (Sample.world Edge.fs_broken)) =
    Return (internal_error "X has 4096 features, but expecting 2048") /\
  exists text,
    fst (predict Sample.app (Sample.request "llama3_8b" 4)
           (Sample.world Edge.fs_broken)) = Return (internal_error text).
Proof.
  split.
  - assert (Hv : PredictRequest_model_validate_json
                   (Sample.request "llama3_8b" 3) =
                 Return (Sample.validated "llama3_8b" 3)) by reflexivity.
    assert (Hres : FS.resolve Edge.fs_broken
                     (artifact_path Sample.app (Sample.validated "llama3_8b" 3))
                   = Some (FS.File (Return Edge.raising_probe)))
      by reflexivity.
    eapply (proj1 (predict_failing_capability Sample.app _ _ _
                     (Sample.world Edge.fs_broken) Hv Hres));
      reflexivity.
  - assert (Hv : PredictRequest_model_validate_json
                   (Sample.request "llama3_8b" 4) =
                 Return (Sample.validated "llama3_8b" 4)) by reflexivity.
    assert (Hres : FS.resolve Edge.fs_broken
                     (artifact_path Sample.app (Sample.validated "llama3_8b" 4))
                   = Some (FS.File (Return Edge.empty_output_probe)))
      by reflexivity.
    eapply (proj1 (proj2 (proj2
              (predict_failing_capability Sample.app _ _ _
                 (Sample.world Edge.fs_broken) Hv Hres))));
      reflexivity.
Defined.

Lemma predict_absolute_model_ignores_root_witness :
  artifact_path Sample.app (Sample.validated "/app/elsewhere" 0) =
    ["app"; "elsewhere"; "0"; "model.pickle"] /\
  predict Sample.app (Sample.request "/app/elsewhere" 0)
    (Sample.world Sample.fs_mixed) =
  predict ["srv"; "site"] (Sample.request "/app/elsewhere" 0)
    (Sample.world Sample.fs_mixed).
Proof.
  apply (predict_absolute_model_ignores_root Sample.app ["srv"; "site"]
           (Sample.request "/app/elsewhere" 0)
           (Sample.validated "/app/elsewhere" 0)
           (Sample.world Sample.fs_mixed));
    reflexivity.
Defined.

Lemma predict_calls_probe_on_delta_witness :
  exists delta,
    length delta = 4096%nat /\
    In (Invoke PredictProba [delta])
       (history (snd (predict Sample.app (Sample.request "llama3_8b" 0)
                        (Sample.world Sample.fs_mixed)))).
Proof.
  assert (Hv : PredictRequest_model_validate_json
                 (Sample.request "llama3_8b" 0) =
               Return (Sample.validated "llama3_8b" 0)) by reflexivity.
  assert (Hres : FS.resolve Sample.fs_mixed
                   (artifact_path Sample.app (Sample.validated "llama3_8b" 0))
                 = Some (FS.File (Return Sample.two_class_probe)))
    by reflexivity.
  destruct (predict_calls_probe_on_delta Sample.app _ _ _
              (Sample.world Sample.fs_mixed) Hv Hres)
    as (delta & Hlen & _ & Hproba & _).
  exists delta. split; [exact Hlen | ].
  apply Hproba. discriminate.
Defined.

Lemma predict_ignores_probe_type_witness :
  fst (predict Sample.app (Edge.typed_request "llama3_8b" "mlp" 0)
         (Sample.world Sample.fs_mixed)) =
    retyped "mlp"
      (fst (predict Sample.app (Sample.request "llama3_8b" 0)
              (Sample.world Sample.fs_mixed))).
Proof.
  apply (predict_ignores_probe_type Sample.app
           (Sample.request "llama3_8b" 0)
           (Edge.typed_request "llama3_8b" "mlp" 0)
           (Sample.validated "llama3_8b" 0)
           (Edge.typed_validated "llama3_8b" "mlp" 0)
           (Sample.world Sample.fs_mixed));
    reflexivity.
Defined.

Lemma qualifying_layer_listed_and_served_witness :
  (exists info,
      In info Sample.catalog_mixed /\ ProbeInfo.model info = "llama3_8b" /\
      In 0%Z (ProbeInfo.layers info)) /\
  In (Open (artifact_path Sample.app (Sample.validated "llama3_8b" 0)))
     (history (snd (predict Sample.app (Sample.request "llama3_8b" 0)
                      (Sample.world Sample.fs_mixed)))).
Proof.
  assert (Hv : PredictRequest_model_validate_json
                 (Sample.request "llama3_8b" 0) =
               Return (Sample.validated "llama3_8b" 0)) by reflexivity.
  destruct (qualifying_layer_listed_and_served Sample.app Sample.no_text
              (Sample.world Sample.fs_mixed) _ _ Hv eq_refl eq_refl)
    as (Hcat & _ & Hopen).
  split; [ | exact Hopen].
  apply (Hcat Sample.catalog_mixed). vm_compute. reflexivity.
Defined.

Lemma layers_in_path_order_witness :
  exists dirs,
    Permutation dirs
      (filter (qualifies Sample.fs_2_10)
         (children Sample.fs_2_10
            (probes_root Sample.app ++ ["llama3_8b"])%list)) /\
    StronglySorted path_le dirs /\
    Forall2 (fun c n => int (name c) = Return n) dirs [10%Z; 2%Z].
Proof.
  apply (layers_in_path_order (probes_root Sample.app ++ ["llama3_8b"])%list
           (Sample.world Sample.fs_2_10) [10%Z; 2%Z]).
  vm_compute. reflexivity.
Defined.

Lemma list_probes_root_not_a_directory_witness :
  exists text,
    fst (list_probes Sample.app Sample.no_text
           (Sample.world Edge.fs_root_is_file))
      = Return (internal_error text).
Proof.
  eapply (list_probes_root_not_a_directory Sample.app Sample.no_text
            (Sample.world Edge.fs_root_is_file)).
  reflexivity.
Defined.

Lemma list_probes_undecodable_layer_name_witness :
  exists text,
    fst (list_probes Sample.app Sample.no_text
           (Sample.world Edge.fs_superscript))
      = Return (internal_error text).
Proof.
  eapply (list_probes_undecodable_layer_name Sample.app Sample.no_text
            (Sample.world Edge.fs_superscript)
            (probes_root Sample.app ++ ["llama3_8b"])%list
            ((probes_root Sample.app ++ ["llama3_8b"])
               ++ [Edge.superscript_two])%list).
  - left. reflexivity.
  - reflexivity.
  - right. left. reflexivity.
  - reflexivity.
  - reflexivity.
  - reflexivity.
Defined.

Lemma catalog_entries_witness :
  let info := ProbeInfo.mk "llama3_8b" "linear_probe" [0%Z] in
  ProbeInfo.probe_type info = "linear_probe" /\
  Forall (fun n => (0 <= n)%Z) (ProbeInfo.layers info) /\
  exists model_dir,
    In model_dir (children Sample.fs_mixed (probes_root Sample.app)) /\
    FS.is_dir Sample.fs_mixed model_dir = true /\
    ProbeInfo.model info = name model_dir /\
    length (ProbeInfo.layers info) =
      length (filter (qualifies Sample.fs_mixed)
                (children Sample.fs_mixed model_dir)).
Proof.
  intro info.
  apply (catalog_entries Sample.app Sample.no_text
           (Sample.world Sample.fs_mixed) Sample.catalog_mixed).
  - vm_compute. reflexivity.
  - left. reflexivity.
Defined.
